(** * qlog: a shallow embedding of the structured logging core

    The development follows [log.go] (the [Log] type, the severity
    operations, the label encoder, the trace context) and the file holding
    the process-wide default logger ([SetOutputJSON] and friends).

    Go strings are byte strings and are modelled by [string]; the Go [int]
    of the output mask is a [Z] used only through [Z.land]; effects (the
    sink, lazy label thunks, the termination hook, the random source, the
    default logger) are threaded through an explicit [World] by a small
    state-and-panic monad. *)

From Stdlib Require Import ZArith NArith List String Ascii Bool Arith Lia.
From Stdlib Require Import DecimalString.
From Stdlib Require DecimalFacts DecimalPos DecimalZ.
Import ListNotations.
Local Open Scope string_scope.

(** ** Byte strings *)

Module Str.

(** The double quote, the backslash and the line terminator. *)
Definition dq_char : ascii := ascii_of_nat 34.
Definition dq : string := String dq_char EmptyString.
Definition bs : string := String (ascii_of_nat 92) EmptyString.
Definition nl : string := String (ascii_of_nat 10) EmptyString.

(** [s] between two double quotes. *)
Definition quoted (s : string) : string := dq ++ s ++ dq.

(** [strings.Contains(s, old)] for a one-byte [old]. *)
Fixpoint Contains (s : string) (old : ascii) : bool :=
  match s with
  | EmptyString => false
  | String c s' => if Ascii.eqb c old then true else Contains s' old
  end.

(** [strings.ReplaceAll(s, old, new)] for a one-byte [old]. *)
Fixpoint ReplaceAll (s : string) (old : ascii) (new : string) : string :=
  match s with
  | EmptyString => EmptyString
  | String c s' =>
      if Ascii.eqb c old then new ++ ReplaceAll s' old new
      else String c (ReplaceAll s' old new)
  end.

(** The slice expression [s[:n]]; Go panics when [n] exceeds [len(s)]. *)
Definition slice_to (s : string) (n : nat) : option string :=
  if (n <=? String.length s)%nat then Some (substring 0 n s) else None.

(** Every double quote of [s] directly follows a backslash. [prev] tells
    whether the byte before the current position is a backslash. *)
Fixpoint quotes_escaped_from (prev : bool) (s : string) : bool :=
  match s with
  | EmptyString => true
  | String c s' =>
      if Ascii.eqb c dq_char then prev && quotes_escaped_from false s'
      else quotes_escaped_from (Ascii.eqb c (ascii_of_nat 92)) s'
  end.

Definition quotes_escaped (s : string) : bool := quotes_escaped_from false s.

(** [s] occurs in [t] as a contiguous run of bytes. *)
Definition occurs_in (s t : string) : Prop := exists a b, t = a ++ s ++ b.

End Str.

Import Str.

(** ** What the logger takes from the Go runtime

    [strconv.FormatFloat], [fmt.Sprintf("%v", _)] on floats, functions and
    values of arbitrary dynamic type, and the seeded random source are not
    code of this package: they are the fields of a [Runtime]. *)

Class Runtime := {
  float32 : Type;
  float64 : Type;
  (** any dynamic type the type switches have no case for (also [nil]) *)
  opaque : Type;
  (** [strconv.FormatFloat(float64(v), 'f', 2, 64)] *)
  FormatFloat32 : float32 -> string;
  (** [strconv.FormatFloat(v, 'f', 2, 64)] *)
  FormatFloat64 : float64 -> string;
  (** [fmt.Sprintf("%v", v)] *)
  SprintFloat32 : float32 -> string;
  SprintFloat64 : float64 -> string;
  SprintOpaque : opaque -> string;
  (** [fmt.Sprintf("%v", f)] for a func value, identified by its number *)
  SprintFunc : nat -> string;
  (** the successive raw outputs of [rand.NewSource(time.Now().UnixNano())] *)
  rngSource : nat -> Z
}.

(** [strconv.Itoa], [strconv.FormatUint(_, 10)], [strconv.FormatBool]. *)
Definition Itoa (n : Z) : string := NilZero.string_of_int (Z.to_int n).
Definition FormatUint (n : N) : string := NilZero.string_of_uint (N.to_uint n).
Definition FormatBool (b : bool) : string := if b then "true" else "false".

(** A lazy label value [func() T]. [th_id] names the function so that its
    invocations can be counted; [th_run k] is what its [k]-th invocation
    (counting from 0) returns. *)
Record thunk (A : Type) := Thunk { th_id : nat; th_run : nat -> A }.
Arguments Thunk {A} _ _.
Arguments th_id {A} _.
Arguments th_run {A} _ _.

(** The dynamic values ([any]) a label sequence is made of, by the cases of
    the type switch in [log]. *)
Inductive value {rt : Runtime} : Type :=
| VString (s : string)
| VInt (n : Z)
| VUint (n : N)
| VBool (b : bool)
| VFloat32 (f : float32)
| VFloat64 (f : float64)
| VStringer (repr : string)          (* a [fmt.Stringer]; [repr] is [String()] *)
| VFuncString (t : thunk string)
| VFuncInt (t : thunk Z)
| VFuncUint (t : thunk N)
| VFuncBool (t : thunk bool)
| VFuncFloat32 (t : thunk float32)
| VFuncFloat64 (t : thunk float64)
| VOther (o : opaque).

(** ** Logger, sink and world *)

(** An [io.Writer]: the process's standard error or some other sink. *)
Inductive ioWriter := Stderr | Buffer (n : nat).

Record Log := mkLog {
  commonLabels : string;
  outputMask : Z;
  outputJSON : bool;
  Writer : ioWriter
}.

Definition OutputFlagNone : Z := 0.
Definition OutputFlagFatal : Z := 1.
Definition OutputFlagError : Z := 2.
Definition OutputFlagWarning : Z := 4.
Definition OutputFlagNotice : Z := 8.
Definition OutputFlagInfo : Z := 16.
Definition OutputFlagTrace : Z := 32.
Definition OutputFlagDebug : Z := 64.

Definition OutputMaskImportant : Z :=
  Z.lor (Z.lor (Z.lor OutputFlagFatal OutputFlagError) OutputFlagWarning) OutputFlagNotice.
Definition OutputMaskDetail : Z := Z.lor OutputMaskImportant OutputFlagInfo.
Definition OutputMaskAll : Z := Z.lor OutputMaskDetail OutputFlagDebug.

(** The process state the package reads and writes. *)
Record World := mkWorld {
  (** every [Write] call so far, oldest first: the sink and the bytes *)
  written : list (ioWriter * string);
  (** the lazy label functions invoked so far, oldest first *)
  invoked : list nat;
  (** how many times [FatalFunc] ran *)
  terminated : nat;
  (** how many values were drawn from the random source *)
  rngPos : nat;
  (** [timeNow().UTC()] rendered with [TimestampFormat] *)
  now : string;
  TraceIDFieldName : string;
  defaultLog : Log
}.

Definition set_written (f : list (ioWriter * string) -> list (ioWriter * string)) (w : World) : World :=
  mkWorld (f (written w)) (invoked w) (terminated w) (rngPos w) (now w) (TraceIDFieldName w) (defaultLog w).
Definition set_invoked (f : list nat -> list nat) (w : World) : World :=
  mkWorld (written w) (f (invoked w)) (terminated w) (rngPos w) (now w) (TraceIDFieldName w) (defaultLog w).
Definition set_terminated (f : nat -> nat) (w : World) : World :=
  mkWorld (written w) (invoked w) (f (terminated w)) (rngPos w) (now w) (TraceIDFieldName w) (defaultLog w).
Definition set_rngPos (f : nat -> nat) (w : World) : World :=
  mkWorld (written w) (invoked w) (terminated w) (f (rngPos w)) (now w) (TraceIDFieldName w) (defaultLog w).
Definition set_defaultLog (l : Log) (w : World) : World :=
  mkWorld (written w) (invoked w) (terminated w) (rngPos w) (now w) (TraceIDFieldName w) l.

(** ** The state-and-panic monad *)

Inductive Result (A : Type) : Type :=
| Ok (a : A) (w : World)
| Panic (msg : string) (w : World).
Arguments Ok {A} _ _.
Arguments Panic {A} _ _.

Definition M (A : Type) : Type := World -> Result A.

Definition ret {A} (a : A) : M A := fun w => Ok a w.
Definition panic {A} (msg : string) : M A := fun w => Panic msg w.
Definition bind {A B} (c : M A) (k : A -> M B) : M B :=
  fun w => match c w with
           | Ok a w' => k a w'
           | Panic msg w' => Panic msg w'
           end.

Declare Scope go_scope.
Delimit Scope go_scope with go.
Notation "x <- c ;; k" := (bind c (fun x => k))
  (at level 61, c at next level, right associativity) : go_scope.
Notation "c ;; k" := (bind c (fun _ => k))
  (at level 61, right associativity) : go_scope.
Local Open Scope go_scope.

(** The world after a call, whatever its outcome. *)
Definition world_of {A} (r : Result A) : World :=
  match r with Ok _ w => w | Panic _ w => w end.

(** The lines a call added to the sink: [written] only grows, so these are
    the writes past the first [length (written w)]. *)
Definition emitted {A} (w : World) (r : Result A) : list (ioWriter * string) :=
  skipn (List.length (written w)) (written (world_of r)).

(** How often the function numbered [id] has run. *)
Definition invocations (id : nat) (w : World) : nat :=
  count_occ Nat.eq_dec (invoked w) id.

(** ** Primitive effects *)

(** Calling a lazy label function: it runs, and the call is recorded. *)
Definition invoke {A} (t : thunk A) : M A :=
  fun w => Ok (th_run t (invocations (th_id t) w))
              (set_invoked (fun l => l ++ [th_id t])%list w).

(** [wr.Write(b)] under the package lock; the result of [Write] is dropped
    by the caller. *)
Definition Write (wr : ioWriter) (b : string) : M unit :=
  fun w => Ok tt (set_written (fun l => l ++ [(wr, b)])%list w).

(** The termination hook. Its default exits the process; here it is
    recorded, as a test that replaces it would observe it. *)
Definition FatalFunc : M unit :=
  fun w => Ok tt (set_terminated S w).

Definition timeNow : M string := fun w => Ok (now w) w.

Definition getTraceIDFieldName : M string := fun w => Ok (TraceIDFieldName w) w.

(** ** Trace context *)

(** Keys and values held by a [context.Context]. [traceIDKey] is the value
    of the package's unexported key type; no other package can build it. *)
Inductive ctxKey := traceIDKey | foreignKey (n : nat).
Inductive ctxVal := CtxString (s : string) | CtxOther (n : nat).

Definition ctxKey_eqb (a b : ctxKey) : bool :=
  match a, b with
  | traceIDKey, traceIDKey => true
  | foreignKey n, foreignKey m => Nat.eqb n m
  | _, _ => false
  end.

(** A non-nil [context.Context]. [Derived] stands for the contexts that
    carry no value of their own (cancellation, deadlines). The Go interface
    value may also be nil: an argument of that type is an [option context]. *)
Inductive context :=
| Background
| Derived (parent : context)
| WithValue (parent : context) (key : ctxKey) (val : ctxVal).

(** [ctx.Value(key)]: the innermost value attached under [key], if any. *)
Fixpoint Value (ctx : context) (key : ctxKey) : option ctxVal :=
  match ctx with
  | Background => None
  | Derived parent => Value parent key
  | WithValue parent k v => if ctxKey_eqb k key then Some v else Value parent key
  end.

(** No trace identifier is attached anywhere along the chain of [ctx]. *)
Fixpoint no_trace_id (ctx : context) : bool :=
  match ctx with
  | Background => true
  | Derived parent => no_trace_id parent
  | WithValue parent k _ => negb (ctxKey_eqb k traceIDKey) && no_trace_id parent
  end.

Section Model.
Context {rt : Runtime}.

(** [r.Int()]: a non-negative 63-bit integer from the source. *)
Definition Int : M Z :=
  fun w => Ok (Z.land (rngSource (rngPos w)) (2 ^ 63 - 1)) (set_rngPos S w).

Definition pad : string := "XXXXXXXXXXXXXXXXXXX".

(** The body of [newSpanID] once the random integer is drawn. *)
Definition spanIDOf (n : Z) : option string :=
  slice_to (Itoa n ++ pad) (String.length pad).

Definition newSpanID : M string :=
  n <- Int ;;
  match spanIDOf n with
  | Some s => ret s
  | None => panic "slice bounds out of range"
  end.

(** The default [TraceID] accessor. Calling [Value] on a nil interface
    panics. *)
Definition TraceID (ctx : option context) : M string :=
  match ctx with
  | None => panic "invalid memory address or nil pointer dereference"
  | Some c =>
      ret (match Value c traceIDKey with
           | Some (CtxString traceID) => traceID
           | _ => ""
           end)
  end.

Definition ContextFrom (ctx : option context) (traceID : string) : M context :=
  match ctx with
  | None => panic "nil context passed to context-from"
  | Some c =>
      traceID <- (if String.eqb traceID "" then newSpanID else ret traceID) ;;
      ret (WithValue c traceIDKey (CtxString traceID))
  end.

(** ** Label encoder *)

(** [fmt.Sprintf("%v", x)]. *)
Definition Sprintv (x : value) : string :=
  match x with
  | VString s => s
  | VInt n => Itoa n
  | VUint n => FormatUint n
  | VBool b => FormatBool b
  | VFloat32 f => SprintFloat32 f
  | VFloat64 f => SprintFloat64 f
  | VStringer repr => repr
  | VFuncString t => SprintFunc (th_id t)
  | VFuncInt t => SprintFunc (th_id t)
  | VFuncUint t => SprintFunc (th_id t)
  | VFuncBool t => SprintFunc (th_id t)
  | VFuncFloat32 t => SprintFunc (th_id t)
  | VFuncFloat64 t => SprintFunc (th_id t)
  | VOther o => SprintOpaque o
  end.

Definition missing : value := VString "#missing#".

(** [if len(labels)%2 != 0 { labels = append(labels, "#missing#") }] *)
Definition balance (labels : list value) : list value :=
  if negb (List.length labels mod 2 =? 0)%nat then (labels ++ [missing])%list else labels.

Definition index_out_of_range : string := "index out of range".

(** The type switch of [log]: lazy functions are called. *)
Definition logValue (v : value) : M string :=
  match v with
  | VString s => ret (dq ++ s ++ dq)
  | VInt n => ret (Itoa n)
  | VUint n => ret (FormatUint n)
  | VBool b => ret (FormatBool b)
  | VFloat32 f => ret (FormatFloat32 f)
  | VFloat64 f => ret (FormatFloat64 f)
  | VStringer repr => ret repr
  | VFuncString t => s <- invoke t ;; ret (dq ++ s ++ dq)
  | VFuncInt t => n <- invoke t ;; ret (Itoa n)
  | VFuncUint t => n <- invoke t ;; ret (FormatUint n)
  | VFuncBool t => b <- invoke t ;; ret (FormatBool b)
  | VFuncFloat32 t => f <- invoke t ;; ret (FormatFloat32 f)
  | VFuncFloat64 t => f <- invoke t ;; ret (FormatFloat64 f)
  | VOther _ => ret (Sprintv v)
  end.

(** The key of a pair in [log]: a string as it is, anything else through
    [fmt.Sprintf("%v", _)]. *)
Definition logKey (k : value) : string :=
  match k with
  | VString key => key
  | _ => Sprintv k
  end.

(** The loop of [log] from index [i] on, [labels] being [labels[i:]] and
    [b] the bytes built so far. *)
Fixpoint logLabels (openField closeField : string) (labels : list value) (b : string)
  : M string :=
  match labels with
  | [] => ret b
  | k :: rest =>
      let key := logKey k in
      match rest with
      | [] => panic index_out_of_range
      | v :: rest' =>
          val <- logValue v ;;
          logLabels openField closeField rest' (b ++ openField ++ key ++ closeField ++ val)
      end
  end.

(** The type switch of [writeLabels]: it has no case for functions. *)
Definition commonValue (v : value) : string :=
  match v with
  | VString s => dq ++ s ++ dq
  | VInt n => Itoa n
  | VUint n => FormatUint n
  | VBool b => FormatBool b
  | VFloat32 f => FormatFloat32 f
  | VFloat64 f => FormatFloat64 f
  | VStringer repr => repr
  | _ => Sprintv v
  end.

(** The loop of [writeLabels] from index [i] on; [sb] is the builder's
    content. A pair whose key is not a string is passed over ([continue])
    without its value being read. *)
Fixpoint writeLabelsLoop (openField closeField : string) (labels : list value) (sb : string)
  : M string :=
  match labels with
  | [] => ret sb
  | VString key :: rest =>
      match rest with
      | [] => panic index_out_of_range
      | v :: rest' =>
          writeLabelsLoop openField closeField rest'
            (sb ++ openField ++ key ++ closeField ++ commonValue v)
      end
  | _ :: rest =>
      match rest with
      | [] => ret sb
      | _ :: rest' => writeLabelsLoop openField closeField rest' sb
      end
  end.

Definition jsonOpenField : string := ", " ++ dq.
Definition jsonCloseField : string := dq ++ ": ".

Definition writeLabels (sb : string) (outputJSON : bool) (labels : list value) : M string :=
  let labels := balance labels in
  let '(openField, closeField) :=
    if negb outputJSON then (" ", "=") else (jsonOpenField, jsonCloseField) in
  writeLabelsLoop openField closeField labels sb.

(** ** Construction and derivation *)

Definition New (outputMask : Z) (outputJSON : bool) (labels : list value) : M Log :=
  sb <- writeLabels "" outputJSON labels ;;
  ret (mkLog sb outputMask outputJSON Stderr).

(** The struct literal of [WithLabels] names three fields; [outputJSON]
    is left at its zero value. *)
Definition WithLabels (l : Log) (labels : list value) : M Log :=
  sb <- writeLabels "" (outputJSON l) labels ;;
  ret (mkLog (commonLabels l ++ sb) (outputMask l) false (Writer l)).

(** ** Writing a line *)

(** [openLog, closeLog, openField, closeField] of [log]. *)
Definition delimiters (json : bool) : string * string * string * string :=
  if negb json then ("", "", " ", "=")
  else ("{ " ++ dq, " }", jsonOpenField, jsonCloseField).

(** Message and error text: each double quote becomes backslash, quote. *)
Definition escapeQuotes (s : string) : string :=
  if Contains s dq_char then ReplaceAll s dq_char (bs ++ dq) else s.

(** [err] is the text of [err.Error()], or [None] for a nil error. *)
Definition log (l : Log) (ctx : option context) (severity message : string)
    (err : option string) (labels : list value) : M unit :=
  let '(openLog, closeLog, openField, closeField) := delimiters (outputJSON l) in
  name <- getTraceIDFieldName ;;
  traceID <- TraceID ctx ;;
  let b := openLog ++ name ++ closeField ++ dq ++ traceID in
  let b := b ++ (dq ++ openField ++ "severity" ++ closeField ++ dq ++ severity) in
  let b := b ++ (dq ++ openField ++ "timestamp" ++ closeField ++ dq) in
  ts <- timeNow ;;
  let b := b ++ ts in
  let b := b ++ dq in
  let b := match err with
           | Some e =>
               let s := escapeQuotes e in
               b ++ (dq ++ openField ++ "error" ++ closeField ++ dq ++ s ++ dq)
           | None => b
           end in
  let b := b ++ commonLabels l in
  let labels := balance labels in
  b <- logLabels openField closeField labels b ;;
  let b := b ++ (openField ++ "message" ++ closeField ++ dq) in
  let message := escapeQuotes message in
  let b := b ++ message in
  let b := b ++ (dq ++ closeLog ++ nl) in
  Write (Writer l) b.

(** ** Severity operations *)

Definition Fatal (l : Log) (ctx : option context) (message : string)
    (err : option string) (labels : list value) : M unit :=
  if (Z.land (outputMask l) OutputFlagFatal =? 0)%Z then ret tt
  else log l ctx "FATAL" message err labels ;; FatalFunc.

Definition Error (l : Log) (ctx : option context) (message : string)
    (err : option string) (labels : list value) : M unit :=
  if (Z.land (outputMask l) OutputFlagError =? 0)%Z then ret tt
  else log l ctx "ERROR" message err labels.

Definition Warning (l : Log) (ctx : option context) (message : string)
    (err : option string) (labels : list value) : M unit :=
  if (Z.land (outputMask l) OutputFlagWarning =? 0)%Z then ret tt
  else log l ctx "WARNING" message err labels.

Definition Notice (l : Log) (ctx : option context) (message : string)
    (labels : list value) : M unit :=
  if (Z.land (outputMask l) OutputFlagNotice =? 0)%Z then ret tt
  else log l ctx "NOTICE" message None labels.

Definition Info (l : Log) (ctx : option context) (message : string)
    (labels : list value) : M unit :=
  if (Z.land (outputMask l) OutputFlagInfo =? 0)%Z then ret tt
  else log l ctx "INFO" message None labels.

Definition Trace (l : Log) (ctx : option context) (message : string)
    (labels : list value) : M unit :=
  if (Z.land (outputMask l) OutputFlagTrace =? 0)%Z then ret tt
  else log l ctx "DEBUG" message None (labels ++ [VString "trace"; VBool true])%list.

Definition Debug (l : Log) (ctx : option context) (message : string)
    (labels : list value) : M unit :=
  if (Z.land (outputMask l) OutputFlagDebug =? 0)%Z then ret tt
  else log l ctx "DEBUG" message None labels.

(** The seven operations under one name, for statements about all of
    them. [Notice], [Info], [Trace] and [Debug] take no error. *)
Inductive Severity := SFatal | SError | SWarning | SNotice | SInfo | STrace | SDebug.

Definition flagOf (s : Severity) : Z :=
  match s with
  | SFatal => OutputFlagFatal
  | SError => OutputFlagError
  | SWarning => OutputFlagWarning
  | SNotice => OutputFlagNotice
  | SInfo => OutputFlagInfo
  | STrace => OutputFlagTrace
  | SDebug => OutputFlagDebug
  end.

(** The position of the severity's one bit in the mask. *)
Definition bitOf (s : Severity) : Z :=
  match s with
  | SFatal => 0 | SError => 1 | SWarning => 2 | SNotice => 3
  | SInfo => 4 | STrace => 5 | SDebug => 6
  end.

Definition call (s : Severity) (l : Log) (ctx : option context) (message : string)
    (err : option string) (labels : list value) : M unit :=
  match s with
  | SFatal => Fatal l ctx message err labels
  | SError => Error l ctx message err labels
  | SWarning => Warning l ctx message err labels
  | SNotice => Notice l ctx message labels
  | SInfo => Info l ctx message labels
  | STrace => Trace l ctx message labels
  | SDebug => Debug l ctx message labels
  end.

(** ** The process-wide default logger *)

Definition getDefaultLog : M Log := fun w => Ok (defaultLog w) w.
Definition putDefaultLog (l : Log) : M unit := fun w => Ok tt (set_defaultLog l w).

Definition SetWriter (wr : ioWriter) : M unit :=
  d <- getDefaultLog ;;
  putDefaultLog (mkLog (commonLabels d) (outputMask d) (outputJSON d) wr).

Definition SetOutputMask (m : Z) : M unit :=
  d <- getDefaultLog ;;
  putDefaultLog (mkLog (commonLabels d) m (outputJSON d) (Writer d)).

Definition SetOutputJSON (v : bool) : M unit :=
  d <- getDefaultLog ;;
  l <- New (outputMask d) v [] ;;
  d <- getDefaultLog ;;
  let l := mkLog (commonLabels l) (outputMask l) (outputJSON l) (Writer d) in
  putDefaultLog l.

Definition SetLabels (labels : list value) : M unit :=
  d <- getDefaultLog ;;
  l <- New (outputMask d) (outputJSON d) labels ;;
  d <- getDefaultLog ;;
  let l := mkLog (commonLabels l) (outputMask l) (outputJSON l) (Writer d) in
  putDefaultLog l.

(** The free-standing entry points: the operation on the default logger. *)
Definition callDefault (s : Severity) (ctx : option context) (message : string)
    (err : option string) (labels : list value) : M unit :=
  d <- getDefaultLog ;;
  call s d ctx message err labels.

(** [var defaultLog = New(OutputMaskAll, true)]: the world a process
    starts in, given the clock reading. *)
Definition initialWorld (clock : string) : World :=
  mkWorld [] [] 0 0 clock "trace" (mkLog "" OutputMaskAll true Stderr).

End Model.

(** ** What a call renders, as pure functions

    The statements below speak of the text a label sequence renders to and
    of the lazy functions a call runs. Both are given here as functions of
    the label sequence; [logLabels_run] and [log_run] show that the code
    above computes them. [inv] is the record of invocations so far. *)

Section Rendering.
Context {rt : Runtime}.

(** The number of the lazy function [v] is, when the type switch of
    [log] has a case that calls it. *)
Definition funcID (v : value) : option nat :=
  match v with
  | VFuncString t => Some (th_id t)
  | VFuncInt t => Some (th_id t)
  | VFuncUint t => Some (th_id t)
  | VFuncBool t => Some (th_id t)
  | VFuncFloat32 t => Some (th_id t)
  | VFuncFloat64 t => Some (th_id t)
  | _ => None
  end.

Definition callsOf (v : value) : list nat :=
  match funcID v with Some i => [i] | None => [] end.

(** The text of a value in [log], a lazy function being at its
    [count_occ inv id]-th invocation. *)
Definition valueText (inv : list nat) (v : value) : string :=
  let nth (id : nat) := count_occ Nat.eq_dec inv id in
  match v with
  | VString s => dq ++ s ++ dq
  | VInt n => Itoa n
  | VUint n => FormatUint n
  | VBool b => FormatBool b
  | VFloat32 f => FormatFloat32 f
  | VFloat64 f => FormatFloat64 f
  | VStringer repr => repr
  | VFuncString t => dq ++ th_run t (nth (th_id t)) ++ dq
  | VFuncInt t => Itoa (th_run t (nth (th_id t)))
  | VFuncUint t => FormatUint (th_run t (nth (th_id t)))
  | VFuncBool t => FormatBool (th_run t (nth (th_id t)))
  | VFuncFloat32 t => FormatFloat32 (th_run t (nth (th_id t)))
  | VFuncFloat64 t => FormatFloat64 (th_run t (nth (th_id t)))
  | VOther _ => Sprintv v
  end.

(** The lazy functions at value positions, in order. *)
Fixpoint lazyIDs (labels : list value) : list nat :=
  match labels with
  | _ :: v :: rest => (callsOf v ++ lazyIDs rest)%list
  | _ => []
  end.

(** The fields a balanced label sequence renders to in [log]. *)
Fixpoint fragment (openField closeField : string) (inv : list nat) (labels : list value)
  : string :=
  match labels with
  | k :: v :: rest =>
      (openField ++ logKey k ++ closeField ++ valueText inv v)
        ++ fragment openField closeField (inv ++ callsOf v)%list rest
  | _ => ""
  end.

(** Every function number occurring in a label sequence, at any position. *)
Definition funcIDs (labels : list value) : list nat :=
  flat_map callsOf labels.

Definition openLogOf (json : bool) : string := fst (fst (fst (delimiters json))).
Definition closeLogOf (json : bool) : string := snd (fst (fst (delimiters json))).
Definition openFieldOf (json : bool) : string := snd (fst (delimiters json)).
Definition closeFieldOf (json : bool) : string := snd (delimiters json).

(** One field, [<openField><key><closeField><value>]. *)
Definition field (json : bool) (key val : string) : string :=
  openFieldOf json ++ key ++ closeFieldOf json ++ val.

(** The bytes of a line up to the common labels: trace, severity,
    timestamp and, for a non-nil error, the error field. *)
Definition headOf (json : bool) (name traceID severity ts : string) (err : option string)
  : string :=
  let o := openFieldOf json in
  let c := closeFieldOf json in
  let b := openLogOf json ++ name ++ c ++ dq ++ traceID in
  let b := b ++ (dq ++ o ++ "severity" ++ c ++ dq ++ severity) in
  let b := b ++ (dq ++ o ++ "timestamp" ++ c ++ dq) in
  let b := (b ++ ts) ++ dq in
  match err with
  | Some e => b ++ (dq ++ o ++ "error" ++ c ++ dq ++ escapeQuotes e ++ dq)
  | None => b
  end.

(** The message field and the end of the line. *)
Definition tailOf (json : bool) (message : string) : string :=
  (openFieldOf json ++ "message" ++ closeFieldOf json ++ dq)
    ++ escapeQuotes message ++ (dq ++ closeLogOf json ++ nl).

(** The line [log] writes in world [w] for a present context. *)
Definition lineOf (l : Log) (ctx : context) (severity message : string)
    (err : option string) (labels : list value) (w : World) : string :=
  let json := outputJSON l in
  let traceID := match Value ctx traceIDKey with
                 | Some (CtxString t) => t
                 | _ => ""
                 end in
  headOf json (TraceIDFieldName w) traceID severity (now w) err
    ++ commonLabels l
    ++ fragment (openFieldOf json) (closeFieldOf json) (invoked w) (balance labels)
    ++ tailOf json message.

(** The world [log] leaves: the lazy functions have run, the line is in
    the sink. *)
Definition logged (l : Log) (ctx : context) (severity message : string)
    (err : option string) (labels : list value) (w : World) : World :=
  set_written (fun ws => ws ++ [(Writer l, lineOf l ctx severity message err labels w)])%list
    (set_invoked (fun inv => inv ++ lazyIDs (balance labels))%list w).

(** What each severity operation hands to [log]. *)
Definition severityText (s : Severity) : string :=
  match s with
  | SFatal => "FATAL" | SError => "ERROR" | SWarning => "WARNING"
  | SNotice => "NOTICE" | SInfo => "INFO" | STrace => "DEBUG" | SDebug => "DEBUG"
  end.

Definition errorOf (s : Severity) (err : option string) : option string :=
  match s with
  | SFatal | SError | SWarning => err
  | _ => None
  end.

Definition labelsOf (s : Severity) (labels : list value) : list value :=
  match s with
  | STrace => (labels ++ [VString "trace"; VBool true])%list
  | _ => labels
  end.

(** The six kinds of lazy label function and, for each, the direct value
    of the same kind. *)
Inductive lazyKind := KString | KInt | KUint | KBool | KFloat32 | KFloat64.

Definition resultOf (k : lazyKind) : Type :=
  match k with
  | KString => string | KInt => Z | KUint => N | KBool => bool
  | KFloat32 => float32 | KFloat64 => float64
  end.

Definition direct (k : lazyKind) : resultOf k -> value :=
  match k with
  | KString => VString | KInt => VInt | KUint => VUint | KBool => VBool
  | KFloat32 => VFloat32 | KFloat64 => VFloat64
  end.

(** The function numbered [id] that returns [v] whenever it is called. *)
Definition lazy (k : lazyKind) (id : nat) : resultOf k -> value :=
  match k with
  | KString => fun v => VFuncString (Thunk id (fun _ => v))
  | KInt => fun v => VFuncInt (Thunk id (fun _ => v))
  | KUint => fun v => VFuncUint (Thunk id (fun _ => v))
  | KBool => fun v => VFuncBool (Thunk id (fun _ => v))
  | KFloat32 => fun v => VFuncFloat32 (Thunk id (fun _ => v))
  | KFloat64 => fun v => VFuncFloat64 (Thunk id (fun _ => v))
  end.

Definition isString (v : value) : bool :=
  match v with VString _ => true | _ => false end.

(** The fields a balanced label sequence renders to in [writeLabels]. *)
Fixpoint commonFragment (openField closeField : string) (labels : list value) : string :=
  match labels with
  | VString key :: v :: rest =>
      (openField ++ key ++ closeField ++ commonValue v)
        ++ commonFragment openField closeField rest
  | _ :: _ :: rest => commonFragment openField closeField rest
  | _ => ""
  end.

(** [Fatal] runs the termination hook once the line is written. *)
Definition hookOf (s : Severity) (w : World) : World :=
  match s with
  | SFatal => set_terminated S w
  | _ => w
  end.

(** The world a severity operation leaves when its flag is set. *)
Definition afterCall (s : Severity) (l : Log) (ctx : context) (message : string)
    (err : option string) (labels : list value) (w : World) : World :=
  hookOf s (logged l ctx (severityText s) message (errorOf s err) (labelsOf s labels) w).

End Rendering.

(** ** A runtime to run the model on concrete inputs

    Floats are hundredths held in a [Z]; a value of any other type is given
    by its [%v] text; a function prints as its number. *)

Definition twoDecimals (h : Z) : string :=
  let frac := (Z.abs h mod 100)%Z in
  (if (h <? 0)%Z then "-" else "")
    ++ Itoa (Z.abs h / 100)%Z ++ "." ++ (if (frac <? 10)%Z then "0" else "") ++ Itoa frac.

Definition demoRuntime : Runtime := {|
  float32 := Z;
  float64 := Z;
  opaque := string;
  FormatFloat32 := twoDecimals;
  FormatFloat64 := twoDecimals;
  SprintFloat32 := twoDecimals;
  SprintFloat64 := twoDecimals;
  SprintOpaque := fun s => s;
  SprintFunc := fun id => "0x" ++ FormatUint (N.of_nat id);
  rngSource := fun k => (6364136223846793005 * Z.of_nat k + 1442695040888963407)%Z
|}.

(** A logfmt and a JSON logger that let everything through, a context with
    and one without a trace identifier, and a fresh world. *)
Definition everyFlag : Z := Z.lor OutputMaskAll OutputFlagTrace.
Definition logfmtLog : Log := mkLog "" everyFlag false (Buffer 0).
Definition jsonLog : Log := mkLog "" everyFlag true (Buffer 0).
Definition tracedCtx : context := WithValue Background traceIDKey (CtxString "t1").
Definition world0 : World := initialWorld "T".

(** ** Masks built from flags; label sequences without lazy parts *)

(** [f1 | f2 | ...]: the mask holding the flags of the severities listed,
    as in [SetOutputMask(OutputFlagFatal|OutputFlagTrace)]. *)
Definition maskOf (ss : list Severity) : Z :=
  fold_right (fun s m => Z.lor (flagOf s) m) OutputFlagNone ss.

Definition isFatal (s : Severity) : bool :=
  match s with SFatal => true | _ => false end.

Section Plain.
Context {rt : Runtime}.

Definition isLazy (v : value) : bool :=
  match funcID v with Some _ => true | None => false end.

(** Every key is a string and no value is a lazy function; the unpaired
    last element of an odd-length sequence counts as a key. *)
Fixpoint plainLabels (labels : list value) : bool :=
  match labels with
  | [] => true
  | [k] => isString k
  | k :: v :: rest => isString k && negb (isLazy v) && plainLabels rest
  end.

(** The decimal digits [0] to [9]. *)
Definition isDigit (c : ascii) : bool :=
  let n := nat_of_ascii c in (48 <=? n)%nat && (n <=? 57)%nat.

Fixpoint allDigits (s : string) : bool :=
  match s with
  | EmptyString => true
  | String c s' => isDigit c && allDigits s'
  end.

End Plain.

(** * Facts *)

Module StrFacts.

Lemma append_assoc (a b c : string) : (a ++ b) ++ c = a ++ (b ++ c).
Proof. induction a as [|x a IH]; simpl; [reflexivity | now rewrite IH]. Qed.

Lemma append_nil_r (a : string) : a ++ "" = a.
Proof. induction a as [|x a IH]; simpl; [reflexivity | now rewrite IH]. Qed.

Lemma length_append (a b : string) :
  String.length (a ++ b) = String.length a + String.length b.
Proof. induction a as [|x a IH]; simpl; [reflexivity | now rewrite IH]. Qed.

Lemma append_inv_head (a b c : string) : a ++ b = a ++ c -> b = c.
Proof.
  induction a as [|x a IH]; simpl; intros H; [assumption|].
  injection H as H. now apply IH.
Qed.

Lemma length_substring_0 (n : nat) (s : string) :
  n <= String.length s -> String.length (substring 0 n s) = n.
Proof.
  revert s; induction n as [|n IH]; intros s H.
  - destruct s; reflexivity.
  - destruct s as [|c s]; simpl in *; [lia|].
    rewrite IH; [reflexivity | lia].
Qed.

Lemma substring_0_append (a b : string) (n : nat) :
  String.length a <= n ->
  substring 0 n (a ++ b) = a ++ substring 0 (n - String.length a) b.
Proof.
  revert n; induction a as [|x a IH]; intros n H; simpl in *.
  - now rewrite Nat.sub_0_r.
  - destruct n as [|n]; [lia|]. simpl. rewrite IH; [reflexivity | lia].
Qed.

Lemma substring_0_short (a b : string) (n : nat) :
  n <= String.length a -> substring 0 n (a ++ b) = substring 0 n a.
Proof.
  revert n; induction a as [|x a IH]; intros n H; simpl in *.
  - assert (n = 0) by lia; subst. destruct b; reflexivity.
  - destruct n as [|n]; [reflexivity|]. simpl. rewrite IH; [reflexivity | lia].
Qed.

Lemma slice_to_length (s r : string) (n : nat) :
  slice_to s n = Some r -> String.length r = n.
Proof.
  unfold slice_to. destruct (Nat.leb_spec n (String.length s)); [|discriminate].
  intros [= <-]. now apply length_substring_0.
Qed.

Lemma ReplaceAll_absent (s : string) (old : ascii) (new : string) :
  Contains s old = false -> ReplaceAll s old new = s.
Proof.
  induction s as [|c s IH]; simpl; [reflexivity|].
  destruct (Ascii.eqb c old); [discriminate|].
  intros H. now rewrite IH.
Qed.

Lemma quotes_escaped_ReplaceAll (s : string) (p : bool) :
  quotes_escaped_from p (ReplaceAll s dq_char (bs ++ dq)) = true.
Proof.
  revert p; induction s as [|c s IH]; intros p; simpl; [reflexivity|].
  destruct (Ascii.eqb c dq_char) eqn:E.
  - simpl. apply IH.
  - simpl. rewrite E. apply IH.
Qed.

Lemma occurs_in_refl (s : string) : occurs_in s s.
Proof. exists "", "". simpl. now rewrite append_nil_r. Qed.

Lemma occurs_in_append_l (s t a : string) : occurs_in s t -> occurs_in s (a ++ t).
Proof.
  intros (x & y & ->). exists (a ++ x), y. now rewrite append_assoc.
Qed.

Lemma occurs_in_append_r (s t b : string) : occurs_in s t -> occurs_in s (t ++ b).
Proof.
  intros (x & y & ->). exists x, (y ++ b). now rewrite !append_assoc.
Qed.

End StrFacts.

Import StrFacts.

(** ** Arithmetic of masks and parities *)

Lemma land_pow2 (m k : Z) :
  (0 <= k)%Z -> Z.land m (2 ^ k) = if Z.testbit m k then (2 ^ k)%Z else 0%Z.
Proof.
  intros Hk. apply Z.bits_inj'. intros n Hn.
  rewrite Z.land_spec, Z.pow2_bits_eqb by assumption.
  destruct (Z.eqb_spec k n) as [->|Hne].
  - destruct (Z.testbit m n) eqn:E; simpl.
    + now rewrite Z.pow2_bits_true.
    + now rewrite Z.bits_0.
  - rewrite andb_false_r. destruct (Z.testbit m k).
    + rewrite Z.pow2_bits_false; [reflexivity | assumption].
    + now rewrite Z.bits_0.
Qed.

Lemma flagOf_pow2 (s : Severity) : flagOf s = (2 ^ bitOf s)%Z.
Proof. destruct s; reflexivity. Qed.

Lemma bitOf_nonneg (s : Severity) : (0 <= bitOf s)%Z.
Proof. destruct s; simpl; lia. Qed.

(** The test every severity operation starts with reads exactly the bit of
    that severity. *)
Lemma mask_test (m : Z) (s : Severity) :
  (Z.land m (flagOf s) =? 0)%Z = negb (Z.testbit m (bitOf s)).
Proof.
  rewrite flagOf_pow2, land_pow2 by apply bitOf_nonneg.
  destruct (Z.testbit m (bitOf s)); simpl; [|reflexivity].
  apply Z.eqb_neq. pose proof (bitOf_nonneg s).
  assert (0 < 2 ^ bitOf s)%Z by (apply Z.pow_pos_nonneg; lia). lia.
Qed.

Lemma mod2_even (n : nat) : (n mod 2 =? 0)%nat = Nat.even n.
Proof.
  induction n as [n IH] using (well_founded_induction lt_wf).
  destruct n as [|[|n]]; [reflexivity | reflexivity |].
  change (Nat.even (S (S n))) with (Nat.even n).
  rewrite <- (IH n) by lia.
  replace (S (S n)) with (n + 1 * 2) by lia.
  now rewrite Nat.Div0.mod_add.
Qed.

Lemma even_app {A} (l1 l2 : list A) :
  Nat.even (List.length l1) = true ->
  Nat.even (List.length (l1 ++ l2)) = Nat.even (List.length l2).
Proof.
  intros H. rewrite length_app, Nat.even_add, H.
  now destruct (Nat.even (List.length l2)).
Qed.

(** Induction over a sequence two elements at a time. *)
Lemma pairs_ind {A} (P : list A -> Prop) :
  P [] ->
  (forall k v l, Nat.even (List.length l) = true -> P l -> P (k :: v :: l)) ->
  forall l, Nat.even (List.length l) = true -> P l.
Proof.
  intros H0 H2. fix IH 1. intros [|k [|v l]] E.
  - exact H0.
  - discriminate E.
  - apply H2; [exact E | apply IH; exact E].
Qed.

Lemma skipn_past {A} (l l' : list A) : skipn (List.length l) (l ++ l') = l'.
Proof. induction l as [|x l IH]; simpl; [reflexivity | exact IH]. Qed.

Lemma skipn_all_self {A} (l : list A) : skipn (List.length l) l = [].
Proof. induction l as [|x l IH]; simpl; [reflexivity | exact IH]. Qed.

(** ** The code computes the pure renderings *)

Section Runs.
Context {rt : Runtime}.

Lemma set_invoked_nil (w : World) : set_invoked (fun inv => inv ++ [])%list w = w.
Proof. destruct w; unfold set_invoked; simpl. now rewrite app_nil_r. Qed.

Lemma set_invoked_app (a b : list nat) (w : World) :
  set_invoked (fun inv => inv ++ b)%list (set_invoked (fun inv => inv ++ a)%list w)
  = set_invoked (fun inv => inv ++ (a ++ b))%list w.
Proof. unfold set_invoked; simpl. now rewrite <- app_assoc. Qed.

Lemma balance_even (labels : list value) :
  Nat.even (List.length (balance labels)) = true.
Proof.
  unfold balance. rewrite mod2_even.
  destruct (Nat.even (List.length labels)) eqn:E; simpl; [exact E|].
  rewrite length_app, Nat.even_add, E. reflexivity.
Qed.

Lemma balance_of_even (labels : list value) :
  Nat.even (List.length labels) = true -> balance labels = labels.
Proof. intros E. unfold balance. now rewrite mod2_even, E. Qed.

Lemma balance_of_odd (labels : list value) :
  Nat.even (List.length labels) = false -> balance labels = (labels ++ [missing])%list.
Proof. intros E. unfold balance. now rewrite mod2_even, E. Qed.

(** Balancing only concerns what follows an even-length prefix. *)
Lemma balance_app (pre rest : list value) :
  Nat.even (List.length pre) = true ->
  balance (pre ++ rest) = (pre ++ balance rest)%list.
Proof.
  intros E. unfold balance. rewrite !mod2_even, (even_app pre rest E).
  destruct (Nat.even (List.length rest)); simpl; [reflexivity|].
  now rewrite app_assoc.
Qed.

Lemma balance_cons2 (k v : value) (rest : list value) :
  balance (k :: v :: rest) = k :: v :: balance rest.
Proof. apply (balance_app [k; v] rest). reflexivity. Qed.

Lemma logValue_run (v : value) (w : World) :
  logValue v w
  = Ok (valueText (invoked w) v) (set_invoked (fun inv => inv ++ callsOf v)%list w).
Proof.
  destruct v; simpl; unfold ret, callsOf; simpl;
    rewrite ?set_invoked_nil; reflexivity.
Qed.

Lemma logLabels_run (o c : string) (labels : list value) :
  Nat.even (List.length labels) = true ->
  forall b w,
    logLabels o c labels b w
    = Ok (b ++ fragment o c (invoked w) labels)
         (set_invoked (fun inv => inv ++ lazyIDs labels)%list w).
Proof.
  intros E. pattern labels. revert labels E. apply pairs_ind.
  - intros b w. simpl. unfold ret. now rewrite append_nil_r, set_invoked_nil.
  - intros k v l E IH b w.
    change (logLabels o c (k :: v :: l) b w)
      with (bind (logValue v)
              (fun val => logLabels o c l (b ++ o ++ logKey k ++ c ++ val)) w).
    unfold bind. rewrite logValue_run, IH. simpl.
    rewrite set_invoked_app. f_equal. now rewrite !append_assoc.
Qed.

Lemma writeLabelsLoop_run (o c : string) (labels : list value) :
  Nat.even (List.length labels) = true ->
  forall sb w,
    writeLabelsLoop o c labels sb w = Ok (sb ++ commonFragment o c labels) w.
Proof.
  intros E. pattern labels. revert labels E. apply pairs_ind.
  - intros sb w. simpl. unfold ret. now rewrite append_nil_r.
  - intros k v l E IH sb w.
    destruct k; simpl; rewrite IH; try reflexivity.
    f_equal. now rewrite !append_assoc.
Qed.

Lemma writeLabels_run (sb : string) (json : bool) (labels : list value) (w : World) :
  writeLabels sb json labels w
  = Ok (sb ++ commonFragment (openFieldOf json) (closeFieldOf json) (balance labels)) w.
Proof.
  unfold writeLabels. destruct json; simpl;
    now rewrite writeLabelsLoop_run by apply balance_even.
Qed.

Lemma New_run (mask : Z) (json : bool) (labels : list value) (w : World) :
  New mask json labels w
  = Ok (mkLog (commonFragment (openFieldOf json) (closeFieldOf json) (balance labels))
              mask json Stderr) w.
Proof. unfold New, bind. now rewrite writeLabels_run. Qed.

Lemma WithLabels_run (l : Log) (labels : list value) (w : World) :
  WithLabels l labels w
  = Ok (mkLog (commonLabels l
                 ++ commonFragment (openFieldOf (outputJSON l)) (closeFieldOf (outputJSON l))
                      (balance labels))
              (outputMask l) false (Writer l)) w.
Proof. unfold WithLabels, bind. now rewrite writeLabels_run. Qed.

Lemma log_run (l : Log) (ctx : context) (severity message : string)
    (err : option string) (labels : list value) (w : World) :
  log l (Some ctx) severity message err labels w
  = Ok tt (logged l ctx severity message err labels w).
Proof.
  unfold log, logged, lineOf, headOf, tailOf.
  unfold openFieldOf, closeFieldOf, openLogOf, closeLogOf.
  destruct (outputJSON l); unfold delimiters; cbn [negb fst snd]; cbv iota beta;
    unfold bind, getTraceIDFieldName, TraceID, timeNow, ret, Write;
    rewrite logLabels_run by apply balance_even;
    destruct err; simpl fst; simpl snd; do 2 f_equal;
    unfold set_written; simpl; do 3 f_equal;
    rewrite !append_assoc; reflexivity.
Qed.

(** With a nil context an enabled call panics in [TraceID], before any
    lazy function runs and before anything reaches the sink. *)
Lemma log_nil_context (l : Log) (severity message : string)
    (err : option string) (labels : list value) (w : World) :
  exists msg, log l None severity message err labels w = Panic msg w.
Proof.
  unfold log. destruct (outputJSON l); simpl; eexists; reflexivity.
Qed.

Lemma call_run (s : Severity) (l : Log) (ctx : context) (message : string)
    (err : option string) (labels : list value) (w : World) :
  call s l (Some ctx) message err labels w
  = if Z.testbit (outputMask l) (bitOf s)
    then Ok tt (afterCall s l ctx message err labels w)
    else Ok tt w.
Proof.
  pose proof (mask_test (outputMask l) s) as T.
  destruct s; cbn [flagOf] in T; cbn [call];
    unfold Fatal, Error, Warning, Notice, Info, Trace, Debug;
    rewrite T; destruct (Z.testbit (outputMask l) _); cbn [negb]; try reflexivity;
    unfold bind; rewrite ?log_run; reflexivity.
Qed.

Lemma call_disabled (s : Severity) (l : Log) (ctx : option context) (message : string)
    (err : option string) (labels : list value) (w : World) :
  Z.testbit (outputMask l) (bitOf s) = false ->
  call s l ctx message err labels w = Ok tt w.
Proof.
  intros E. pose proof (mask_test (outputMask l) s) as T. rewrite E in T.
  destruct s; cbn [flagOf negb] in T; cbn [call];
    unfold Fatal, Error, Warning, Notice, Info, Trace, Debug;
    rewrite T; reflexivity.
Qed.

End Runs.

(** ** Severity dispatch *)

Section Dispatch.
Context {rt : Runtime}.

Lemma emitted_logged (s : Severity) (l : Log) (ctx : context) (message : string)
    (err : option string) (labels : list value) (w : World) :
  emitted w (Ok tt (afterCall s l ctx message err labels w))
  = [(Writer l,
      lineOf l ctx (severityText s) message (errorOf s err) (labelsOf s labels) w)].
Proof.
  unfold emitted, afterCall, logged. destruct s; simpl; apply skipn_past.
Qed.

Lemma emitted_nothing {A} (a : A) (w : World) : emitted w (Ok a w) = [].
Proof. unfold emitted. simpl. apply skipn_all_self. Qed.

(** C2. For each of the seven severity operations, every mask, message,
    error value and label sequence: with a context at hand the call adds a
    line to the sink exactly when the mask has the bit of that severity,
    and then it adds that one line to the logger's own sink; when the bit
    is absent the call returns with the world as it found it, whatever the
    context (nil included): no byte written, no lazy label function run,
    the termination hook of [Fatal] not run. *)
Theorem C2_mask_decides_output (s : Severity) (l : Log) (message : string)
    (err : option string) (labels : list value) (w : World) :
  (forall ctx : context,
      emitted w (call s l (Some ctx) message err labels w) <> []
      <-> Z.testbit (outputMask l) (bitOf s) = true)
  /\ (forall ctx : context,
         Z.testbit (outputMask l) (bitOf s) = true ->
         call s l (Some ctx) message err labels w
         = Ok tt (afterCall s l ctx message err labels w)
         /\ emitted w (call s l (Some ctx) message err labels w)
            = [(Writer l,
                lineOf l ctx (severityText s) message (errorOf s err) (labelsOf s labels) w)])
  /\ (forall ctx : option context,
         Z.testbit (outputMask l) (bitOf s) = false ->
         call s l ctx message err labels w = Ok tt w
         /\ emitted w (call s l ctx message err labels w) = []
         /\ invoked (world_of (call s l ctx message err labels w)) = invoked w
         /\ terminated (world_of (call s l ctx message err labels w)) = terminated w).
Proof.
  split; [|split].
  - intros ctx. rewrite call_run.
    destruct (Z.testbit (outputMask l) (bitOf s)).
    + rewrite emitted_logged. split; [reflexivity | discriminate].
    + rewrite emitted_nothing. split; [congruence | discriminate].
  - intros ctx E. rewrite call_run, E. split; [reflexivity | apply emitted_logged].
  - intros ctx E. rewrite (call_disabled s l ctx message err labels w E).
    rewrite emitted_nothing. repeat split.
Qed.

(** The termination hook runs once after the line of an enabled [Fatal],
    and in no other operation. *)
Lemma hook_runs_for_Fatal_only (s : Severity) (l : Log) (ctx : context) (message : string)
    (err : option string) (labels : list value) (w : World) :
  terminated (afterCall s l ctx message err labels w)
  = match s with SFatal => S (terminated w) | _ => terminated w end.
Proof. destruct s; reflexivity. Qed.

(** With a nil context an enabled call panics and leaves the sink alone. *)
Lemma call_nil_context (s : Severity) (l : Log) (message : string)
    (err : option string) (labels : list value) (w : World) :
  Z.testbit (outputMask l) (bitOf s) = true ->
  exists msg, call s l None message err labels w = Panic msg w.
Proof.
  intros E. pose proof (mask_test (outputMask l) s) as T. rewrite E in T.
  destruct s; cbn [flagOf negb] in T; cbn [call];
    unfold Fatal, Error, Warning, Notice, Info, Trace, Debug; rewrite T;
    unfold bind;
    match goal with
    | |- context [log ?l None ?sv ?m ?e ?ls ?w] =>
        destruct (log_nil_context l sv m e ls w) as [msg ->]
    end; eexists; reflexivity.
Qed.

End Dispatch.

(** ** Trace context *)

Section TraceContext.
Context {rt : Runtime}.

Lemma Value_absent (ctx : context) :
  no_trace_id ctx = true -> Value ctx traceIDKey = None.
Proof.
  induction ctx as [|p IH|p IH k v]; simpl; intros H; [reflexivity | auto |].
  apply andb_true_iff in H as [Hk Hp].
  destruct (ctxKey_eqb k traceIDKey); [discriminate | auto].
Qed.

(** C7. For every (non-nil) context and every non-empty [t], [ContextFrom]
    returns a context from which [TraceID] reads [t] back unchanged, and
    draws nothing from the random source; and for a context with no trace
    identifier attached [TraceID] returns the empty string. *)
Theorem C7_trace_id_round_trip (ctx : context) (t : string) (w : World) :
  (t <> "" ->
   exists c, ContextFrom (Some ctx) t w = Ok c w /\ TraceID (Some c) w = Ok t w)
  /\ (no_trace_id ctx = true -> TraceID (Some ctx) w = Ok "" w).
Proof.
  split.
  - intros Ht. unfold ContextFrom, bind.
    destruct (String.eqb_spec t "") as [->|_]; [contradiction|].
    eexists. split; reflexivity.
  - intros H. unfold TraceID, ret. now rewrite Value_absent.
Qed.

(** [ContextFrom] refuses a nil context. *)
Lemma ContextFrom_nil (t : string) (w : World) :
  ContextFrom None t w = Panic "nil context passed to context-from" w.
Proof. reflexivity. Qed.

Lemma Int_range (w : World) :
  exists n, Int w = Ok n (set_rngPos S w) /\ (0 <= n < 2 ^ 63)%Z.
Proof.
  unfold Int. eexists. split; [reflexivity|].
  change (2 ^ 63 - 1)%Z with (Z.ones 63).
  rewrite Z.land_ones by lia. apply Z.mod_pos_bound. lia.
Qed.

Lemma spanIDOf_total (n : Z) :
  spanIDOf n = Some (substring 0 19 (Itoa n ++ pad)).
Proof.
  unfold spanIDOf, slice_to.
  destruct (Nat.leb_spec (String.length pad) (String.length (Itoa n ++ pad))) as [_|H].
  - reflexivity.
  - rewrite length_append in H. lia.
Qed.

(** The digits come first and the filler makes up the width; when the
    digits alone reach the width, the filler is cut off whole. *)
Lemma spanID_shape (n : Z) :
  substring 0 19 (Itoa n ++ pad)
  = if (String.length (Itoa n) <=? 19)%nat
    then Itoa n ++ substring 0 (19 - String.length (Itoa n)) pad
    else substring 0 19 (Itoa n).
Proof.
  destruct (Nat.leb_spec (String.length (Itoa n)) 19) as [H|H].
  - now apply substring_0_append.
  - apply substring_0_short. lia.
Qed.

Lemma drawn_range (x : Z) : (0 <= Z.land x (2 ^ 63 - 1) < 2 ^ 63)%Z.
Proof.
  change (2 ^ 63 - 1)%Z with (Z.ones 63).
  rewrite Z.land_ones by lia. apply Z.mod_pos_bound. lia.
Qed.

(** C8. Every identifier the generator produces has the width of the
    filler, 19 characters. In world [w] the integer [n] that [r.Int()]
    returns is the output of the source at its current position, cut to
    63 bits, hence non-negative; the identifier is the decimal digits of
    that [n] followed by the filler, cut to 19 characters. The generator
    never fails, and [ContextFrom] with an empty [traceID] attaches exactly
    this identifier. *)
Theorem C8_generated_id_width (w : World) :
  let n := Z.land (rngSource (rngPos w)) (2 ^ 63 - 1) in
  let s := substring 0 19 (Itoa n ++ pad) in
  String.length pad = 19
  /\ Int w = Ok n (set_rngPos S w)
  /\ (0 <= n < 2 ^ 63)%Z
  /\ newSpanID w = Ok s (set_rngPos S w)
  /\ String.length s = String.length pad
  /\ forall ctx : context,
       ContextFrom (Some ctx) "" w
       = Ok (WithValue ctx traceIDKey (CtxString s)) (set_rngPos S w)
       /\ TraceID (Some (WithValue ctx traceIDKey (CtxString s))) (set_rngPos S w)
          = Ok s (set_rngPos S w).
Proof.
  intros n s.
  assert (Hs : newSpanID w = Ok s (set_rngPos S w)).
  { unfold newSpanID, bind, Int. fold n. rewrite spanIDOf_total. reflexivity. }
  split; [reflexivity|]. split; [reflexivity|]. split; [apply drawn_range|].
  split; [exact Hs|]. split.
  - apply length_substring_0. rewrite length_append. simpl. lia.
  - intros ctx. unfold ContextFrom, bind.
    change (String.eqb "" "") with true. cbv iota.
    rewrite Hs. split; reflexivity.
Qed.

End TraceContext.

(** ** The default logger *)

Section Default.
Context {rt : Runtime}.

(** [var defaultLog = New(OutputMaskAll, true)] is the logger of
    [initialWorld]. *)
Lemma defaultLog_initial (clock : string) (w : World) :
  New OutputMaskAll true [] w = Ok (defaultLog (initialWorld clock)) w.
Proof. reflexivity. Qed.

(** C9. [SetOutputJSON v] replaces the default logger by one with an empty
    common-label fragment, the format [v], and the mask and writer the
    default logger had; nothing else in the world changes. A line the
    default logger then writes goes to that writer and consists of the
    head, the call-site labels and the message: no common label is in it. *)
Theorem C9_SetOutputJSON_discards_labels (v : bool) (w : World) :
  exists w',
    SetOutputJSON v w = Ok tt w'
    /\ commonLabels (defaultLog w') = ""
    /\ outputJSON (defaultLog w') = v
    /\ outputMask (defaultLog w') = outputMask (defaultLog w)
    /\ Writer (defaultLog w') = Writer (defaultLog w)
    /\ w' = set_defaultLog (defaultLog w') w
    /\ forall (s : Severity) (ctx : context) (message : string) (err : option string)
              (labels : list value),
         emitted w' (callDefault s (Some ctx) message err labels w')
         = if Z.testbit (outputMask (defaultLog w)) (bitOf s)
           then [(Writer (defaultLog w),
                  headOf v (TraceIDFieldName w)
                    (match Value ctx traceIDKey with Some (CtxString t) => t | _ => "" end)
                    (severityText s) (now w) (errorOf s err)
                  ++ fragment (openFieldOf v) (closeFieldOf v) (invoked w)
                       (balance (labelsOf s labels))
                  ++ tailOf v message)]
           else [].
Proof.
  eexists. split.
  - unfold SetOutputJSON, bind, getDefaultLog, putDefaultLog.
    rewrite New_run. simpl. reflexivity.
  - simpl. repeat split.
    intros s ctx message err labels.
    unfold callDefault, bind, getDefaultLog. simpl defaultLog.
    rewrite call_run. simpl outputMask.
    destruct (Z.testbit (outputMask (defaultLog w)) (bitOf s)).
    + rewrite emitted_logged. unfold lineOf. simpl.
      destruct v; reflexivity.
    + apply emitted_nothing.
Qed.

End Default.

(** ** The label encoder *)

Section Encoder.
Context {rt : Runtime}.

(** Induction two elements at a time over a sequence of any length. *)
Lemma pairs_rect_any {A} (P : list A -> Prop) :
  P [] -> (forall x, P [x]) -> (forall k v l, P l -> P (k :: v :: l)) ->
  forall l, P l.
Proof.
  intros H0 H1 H2. fix IH 1. intros [|k [|v l]].
  - exact H0.
  - apply H1.
  - apply H2, IH.
Qed.

Lemma lazyIDs_app (pre rest : list value) :
  Nat.even (List.length pre) = true ->
  lazyIDs (pre ++ rest) = (lazyIDs pre ++ lazyIDs rest)%list.
Proof.
  intros E. pattern pre. revert pre E. apply pairs_ind.
  - reflexivity.
  - intros k v l _ IH. simpl. now rewrite IH, app_assoc.
Qed.

Lemma fragment_app (o c : string) (pre rest : list value) :
  Nat.even (List.length pre) = true ->
  forall inv,
    fragment o c inv (pre ++ rest)
    = fragment o c inv pre ++ fragment o c (inv ++ lazyIDs pre)%list rest.
Proof.
  intros E. pattern pre. revert pre E. apply pairs_ind.
  - intros inv. simpl. now rewrite app_nil_r.
  - intros k v l _ IH inv. simpl. rewrite IH, <- !app_assoc, !append_assoc.
    reflexivity.
Qed.

Lemma commonFragment_app (o c : string) (pre rest : list value) :
  Nat.even (List.length pre) = true ->
  commonFragment o c (pre ++ rest) = commonFragment o c pre ++ commonFragment o c rest.
Proof.
  intros E. pattern pre. revert pre E. apply pairs_ind.
  - reflexivity.
  - intros k v l _ IH.
    destruct k; simpl; rewrite IH; try reflexivity.
    now rewrite !append_assoc.
Qed.

(** Values that are not lazy functions add no invocation, wherever they
    stand. *)
Lemma lazyIDs_inert (extra : list value) :
  Forall (fun v => callsOf v = []) extra -> lazyIDs extra = [].
Proof.
  pattern extra. revert extra. apply pairs_rect_any.
  - reflexivity.
  - reflexivity.
  - intros k v l IH H. inversion H as [|? ? _ H1]; subst.
    inversion H1 as [|? ? Hv Hl]; subst. simpl. rewrite Hv, IH by assumption.
    reflexivity.
Qed.

Lemma lazyIDs_app_inert (labels extra : list value) :
  Forall (fun v => callsOf v = []) extra ->
  lazyIDs (labels ++ extra) = lazyIDs labels.
Proof.
  intros H. pattern labels. revert labels. apply pairs_rect_any.
  - simpl. now apply lazyIDs_inert.
  - intros x. simpl. destruct extra as [|v rest]; [reflexivity|].
    inversion H as [|? ? Hv Hrest]; subst.
    rewrite Hv, lazyIDs_inert by assumption. reflexivity.
  - intros k v l IH. simpl. now rewrite IH.
Qed.

Lemma lazyIDs_balance (labels : list value) : lazyIDs (balance labels) = lazyIDs labels.
Proof.
  unfold balance. destruct (negb _); [|reflexivity].
  apply lazyIDs_app_inert. repeat constructor.
Qed.

Lemma lazyIDs_labelsOf (s : Severity) (labels : list value) :
  lazyIDs (balance (labelsOf s labels)) = lazyIDs labels.
Proof.
  rewrite lazyIDs_balance. destruct s; try reflexivity.
  apply lazyIDs_app_inert. repeat constructor.
Qed.

Lemma labelsOf_app (s : Severity) (pre rest : list value) :
  labelsOf s (pre ++ rest) = (pre ++ labelsOf s rest)%list.
Proof. destruct s; simpl; try reflexivity. now rewrite app_assoc. Qed.

(** The text of a value depends on the record of invocations only through
    the count of its own function. *)
Lemma valueText_agree (v : value) (inv1 inv2 : list nat) :
  (forall j, In j (callsOf v) -> count_occ Nat.eq_dec inv1 j = count_occ Nat.eq_dec inv2 j) ->
  valueText inv1 v = valueText inv2 v.
Proof.
  intros H. destruct v; simpl; try reflexivity;
    rewrite (H (th_id t)) by (left; reflexivity); reflexivity.
Qed.

Lemma fragment_agree (o c : string) (labels : list value) :
  forall inv1 inv2,
    (forall j, In j (lazyIDs labels) ->
               count_occ Nat.eq_dec inv1 j = count_occ Nat.eq_dec inv2 j) ->
    fragment o c inv1 labels = fragment o c inv2 labels.
Proof.
  pattern labels. revert labels. apply pairs_rect_any.
  - reflexivity.
  - reflexivity.
  - intros k v l IH inv1 inv2 H. simpl.
    rewrite (valueText_agree v inv1 inv2).
    + rewrite (IH (inv1 ++ callsOf v)%list (inv2 ++ callsOf v)%list); [reflexivity|].
      intros j Hj. rewrite !count_occ_app, H; [reflexivity|].
      simpl. apply in_or_app. now right.
    + intros j Hj. apply H. simpl. apply in_or_app. now left.
Qed.

Lemma valueText_lazy (kd : lazyKind) (id : nat) (v : resultOf kd) (inv : list nat) :
  valueText inv (lazy kd id v) = valueText [] (direct kd v).
Proof. destruct kd; reflexivity. Qed.

Lemma valueText_direct (kd : lazyKind) (v : resultOf kd) (inv : list nat) :
  valueText inv (direct kd v) = valueText [] (direct kd v).
Proof. destruct kd; reflexivity. Qed.

Lemma callsOf_lazy (kd : lazyKind) (id : nat) (v : resultOf kd) :
  callsOf (lazy kd id v) = [id].
Proof. destruct kd; reflexivity. Qed.

Lemma callsOf_direct (kd : lazyKind) (v : resultOf kd) : callsOf (direct kd v) = [].
Proof. destruct kd; reflexivity. Qed.

(** Where a pair stands in the line: after an even-length prefix [pre],
    the pair [k, v] renders to one field between the fields of [pre] and
    those of what follows. *)
Lemma fragment_pair (o c : string) (pre post : list value) (k v : value) (inv : list nat) :
  Nat.even (List.length pre) = true ->
  fragment o c inv (pre ++ k :: v :: post)
  = fragment o c inv pre
    ++ (o ++ logKey k ++ c ++ valueText (inv ++ lazyIDs pre)%list v)
    ++ fragment o c ((inv ++ lazyIDs pre) ++ callsOf v)%list post.
Proof. intros E. rewrite fragment_app by assumption. reflexivity. Qed.

Lemma escapeQuotes_ReplaceAll (s : string) :
  escapeQuotes s = ReplaceAll s dq_char (bs ++ dq).
Proof.
  unfold escapeQuotes. destruct (Contains s dq_char) eqn:E; [reflexivity|].
  symmetry. now apply ReplaceAll_absent.
Qed.

Lemma escapeQuotes_escaped (s : string) : quotes_escaped (escapeQuotes s) = true.
Proof. rewrite escapeQuotes_ReplaceAll. apply quotes_escaped_ReplaceAll. Qed.

End Encoder.

(** ** What reaches the line *)

Section Lines.
Context {rt : Runtime}.

Lemma emitted_log (l : Log) (ctx : context) (severity message : string)
    (err : option string) (labels : list value) (w : World) :
  emitted w (log l (Some ctx) severity message err labels w)
  = [(Writer l, lineOf l ctx severity message err labels w)].
Proof. rewrite log_run. unfold emitted, logged. simpl. apply skipn_past. Qed.

Lemma invoked_afterCall (s : Severity) (l : Log) (ctx : context) (message : string)
    (err : option string) (labels : list value) (w : World) :
  invoked (afterCall s l ctx message err labels w) = (invoked w ++ lazyIDs labels)%list.
Proof.
  rewrite <- (lazyIDs_labelsOf s labels). destruct s; reflexivity.
Qed.

(** The labels [log] walks when the caller's sequence has the pair [k, x]
    after an even-length prefix. *)
Lemma walked (s : Severity) (pre post : list value) (k x : value) :
  Nat.even (List.length pre) = true ->
  balance (labelsOf s (pre ++ k :: x :: post))
  = (pre ++ k :: x :: balance (labelsOf s post))%list.
Proof.
  intros E. rewrite labelsOf_app, balance_app by assumption. f_equal.
  change (k :: x :: post) with ([k; x] ++ post)%list.
  rewrite labelsOf_app. apply balance_cons2.
Qed.

Lemma logKey_fallback (k : value) : isString k = false -> logKey k = Sprintv k.
Proof. destruct k; simpl; intros H; [discriminate H | reflexivity ..]. Qed.

Lemma tailOf_shape (json : bool) (message : string) :
  tailOf json message
  = field json "message" (dq ++ ReplaceAll message dq_char (bs ++ dq) ++ dq)
    ++ closeLogOf json ++ nl.
Proof.
  unfold tailOf, field. rewrite escapeQuotes_ReplaceAll.
  now rewrite !append_assoc.
Qed.

(** The line of [log], split around the field of the pair [k, v]. *)
Lemma line_around_pair (l : Log) (ctx : context) (severity message : string)
    (err : option string) (pre post : list value) (k v : value) (w : World) :
  Nat.even (List.length pre) = true ->
  let json := outputJSON l in
  let traceID := match Value ctx traceIDKey with Some (CtxString t) => t | _ => "" end in
  let a := headOf json (TraceIDFieldName w) traceID severity (now w) err
           ++ commonLabels l
           ++ fragment (openFieldOf json) (closeFieldOf json) (invoked w) pre in
  let b := fragment (openFieldOf json) (closeFieldOf json)
             ((invoked w ++ lazyIDs pre) ++ callsOf v)%list (balance post) in
  lineOf l ctx severity message err (pre ++ k :: v :: post) w
  = a ++ field json (logKey k) (valueText (invoked w ++ lazyIDs pre)%list v)
      ++ b ++ tailOf json message.
Proof.
  intros E json traceID a b. unfold lineOf. fold json traceID.
  pose proof (walked SDebug pre post k v E) as Hw. cbn [labelsOf] in Hw.
  rewrite Hw, fragment_pair by assumption. unfold a, b, field.
  now rewrite !append_assoc.
Qed.

(** C3. For each of the six kinds of lazy label function and every value
    [v]: on a call whose mask bit is set, the function returning [v], given
    as the value of a call-site label, renders the very line that [v] given
    directly renders, the field being [<key><closeField><text of v>]; the
    function is run exactly once by that call, and not at all by a call
    whose mask bit is absent. ([id] names the function; it is not also
    passed as another label value of the same call.) *)
Theorem C3_lazy_matches_direct (s : Severity) (l : Log) (ctx : context)
    (message : string) (err : option string) (pre post : list value) (key : value)
    (kd : lazyKind) (id : nat) (v : resultOf kd) (w : World) :
  Nat.even (List.length pre) = true ->
  ~ In id (lazyIDs (pre ++ post)) ->
  let viaLazy := call s l (Some ctx) message err (pre ++ key :: lazy kd id v :: post) w in
  let viaDirect := call s l (Some ctx) message err (pre ++ key :: direct kd v :: post) w in
  emitted w viaLazy = emitted w viaDirect
  /\ (Z.testbit (outputMask l) (bitOf s) = true ->
      (exists line,
          emitted w viaLazy = [(Writer l, line)]
          /\ occurs_in (field (outputJSON l) (logKey key) (valueText [] (direct kd v))) line)
      /\ invocations id (world_of viaLazy) = S (invocations id w))
  /\ (Z.testbit (outputMask l) (bitOf s) = false ->
      invocations id (world_of viaLazy) = invocations id w).
Proof.
  intros E Hid viaLazy viaDirect. unfold viaLazy, viaDirect. clear viaLazy viaDirect.
  rewrite lazyIDs_app in Hid by assumption.
  assert (Hpre : ~ In id (lazyIDs pre)) by (intros H; apply Hid, in_or_app; now left).
  assert (Hpost : ~ In id (lazyIDs post)) by (intros H; apply Hid, in_or_app; now right).
  set (json := outputJSON l).
  set (o := openFieldOf json). set (c := closeFieldOf json).
  set (inv' := (invoked w ++ lazyIDs pre)%list).
  set (rest := balance (labelsOf s post)).
  assert (Hrest : fragment o c (inv' ++ [id])%list rest = fragment o c (inv' ++ [])%list rest).
  { apply fragment_agree. intros j Hj. unfold rest in Hj.
    rewrite lazyIDs_labelsOf in Hj. rewrite !count_occ_app. simpl.
    destruct (Nat.eq_dec id j) as [->|_]; [contradiction | reflexivity]. }
  assert (Hline : forall x,
             lineOf l ctx (severityText s) message (errorOf s err)
               (labelsOf s (pre ++ key :: x :: post)) w
             = (headOf json (TraceIDFieldName w)
                  (match Value ctx traceIDKey with Some (CtxString t) => t | _ => "" end)
                  (severityText s) (now w) (errorOf s err)
                ++ commonLabels l ++ fragment o c (invoked w) pre)
               ++ field json (logKey key) (valueText inv' x)
               ++ fragment o c (inv' ++ callsOf x)%list rest
               ++ tailOf json message).
  { intros x. unfold lineOf. rewrite (walked s pre post key x E).
    rewrite fragment_pair by assumption. unfold field. fold json o c inv' rest.
    now rewrite !append_assoc. }
  rewrite !call_run. destruct (Z.testbit (outputMask l) (bitOf s)).
  - rewrite !emitted_logged, !Hline.
    rewrite valueText_lazy, (valueText_direct kd v inv'), callsOf_lazy, callsOf_direct, Hrest.
    split; [reflexivity | split; [|discriminate]].
    intros _. split.
    + eexists. split; [reflexivity|]. eexists _, _. reflexivity.
    + unfold invocations. simpl world_of. rewrite invoked_afterCall.
      rewrite lazyIDs_app by assumption. simpl lazyIDs.
      rewrite callsOf_lazy, !count_occ_app.
      rewrite (proj1 (count_occ_not_In Nat.eq_dec _ _) Hpre).
      rewrite (proj1 (count_occ_not_In Nat.eq_dec _ _) Hpost).
      simpl. destruct (Nat.eq_dec id id); [lia | congruence].
  - split; [reflexivity | split; [discriminate | reflexivity]].
Qed.

(** C6, as the code has it. In [log] a pair whose key is not a string is
    still written, its key being the [%v] text of the key. In
    [writeLabels], which renders the common labels of [New] and
    [WithLabels], such a pair is passed over: the logger built is the one
    built without the pair. *)
Theorem C6_non_string_keys (l : Log) (ctx : context) (severity message : string)
    (err : option string) (pre post : list value) (k v : value) (w : World) :
  Nat.even (List.length pre) = true ->
  isString k = false ->
  (exists a b,
      emitted w (log l (Some ctx) severity message err (pre ++ k :: v :: post) w)
      = [(Writer l,
          a ++ field (outputJSON l) (Sprintv k) (valueText (invoked w ++ lazyIDs pre)%list v)
            ++ b)])
  /\ (forall mask json,
         New mask json (pre ++ k :: v :: post) w = New mask json (pre ++ post) w)
  /\ WithLabels l (pre ++ k :: v :: post) w = WithLabels l (pre ++ post) w.
Proof.
  intros E Hk.
  assert (Hskip : forall json,
             commonFragment (openFieldOf json) (closeFieldOf json)
               (balance (pre ++ k :: v :: post))
             = commonFragment (openFieldOf json) (closeFieldOf json)
                 (balance (pre ++ post))).
  { intros json. rewrite !balance_app by assumption.
    rewrite balance_cons2, !commonFragment_app by assumption. f_equal.
    destruct k; simpl in Hk |- *; [discriminate Hk | reflexivity ..]. }
  split; [|split].
  - rewrite emitted_log, line_around_pair by assumption.
    rewrite (logKey_fallback k Hk). eexists _, _. reflexivity.
  - intros mask json. now rewrite !New_run, Hskip.
  - now rewrite !WithLabels_run, Hskip.
Qed.

(** C10. A string given as the value of a call-site label reaches the line
    as it is, between two double quotes, whatever bytes it holds: nothing
    replaces its double quotes. The message and the error text are the
    only texts passed through the replacement of each double quote by a
    backslash and a double quote. *)
Theorem C10_string_values_verbatim (l : Log) (ctx : context) (severity message : string)
    (err : option string) (pre post : list value) (k : value) (s : string) (w : World) :
  Nat.even (List.length pre) = true ->
  let json := outputJSON l in
  exists a b,
    emitted w (log l (Some ctx) severity message err (pre ++ k :: VString s :: post) w)
    = [(Writer l,
        a ++ field json (logKey k) (dq ++ s ++ dq)
          ++ b
          ++ field json "message" (dq ++ ReplaceAll message dq_char (bs ++ dq) ++ dq)
          ++ closeLogOf json ++ nl)]
    /\ quotes_escaped (ReplaceAll message dq_char (bs ++ dq)) = true
    /\ match err with
       | Some e =>
           occurs_in (field json "error" (dq ++ ReplaceAll e dq_char (bs ++ dq) ++ dq)) a
           /\ quotes_escaped (ReplaceAll e dq_char (bs ++ dq)) = true
       | None => True
       end.
Proof.
  intros E json.
  rewrite emitted_log, line_around_pair by assumption. fold json.
  rewrite tailOf_shape. simpl valueText.
  eexists _, _. split; [reflexivity|]. split; [apply quotes_escaped_ReplaceAll|].
  destruct err as [e|]; [|exact I].
  split; [|apply quotes_escaped_ReplaceAll].
  apply occurs_in_append_r. unfold headOf. rewrite escapeQuotes_ReplaceAll.
  apply occurs_in_append_l. unfold field.
  exists dq, "". simpl. now rewrite !append_assoc, append_nil_r.
Qed.

End Lines.

(** ** Derivation, the sentinel and the forced trace label *)

Section Derivation.
Context {rt : Runtime}.

(** What [WithLabels] keeps and what it does not: mask and sink are the
    parent's, the fragment is the parent's followed by the fragment [New]
    renders for the same labels in the parent's format, and the format of
    the result is logfmt whatever the parent's format. Nothing in the world
    changes, the parent being a value of its own. *)
Lemma WithLabels_derives (l : Log) (labels : list value) (w : World) :
  exists child fresh,
    WithLabels l labels w = Ok child w
    /\ New (outputMask l) (outputJSON l) labels w = Ok fresh w
    /\ outputMask child = outputMask l
    /\ Writer child = Writer l
    /\ commonLabels child = commonLabels l ++ commonLabels fresh
    /\ outputJSON child = false.
Proof.
  rewrite WithLabels_run, New_run. eexists _, _. repeat split; reflexivity.
Qed.

Lemma balance_sentinel (labels : list value) :
  Nat.even (List.length labels) = false ->
  balance labels = balance (labels ++ [missing]).
Proof.
  intros E. rewrite (balance_of_odd labels E). symmetry. apply balance_of_even.
  rewrite length_app, Nat.even_add, E. reflexivity.
Qed.

(** In [log], [New] and [WithLabels] an odd-length sequence is handled as
    the sequence with ["#missing#"] appended, and none of them can fail on
    the labels. This is so for the sequence [log] receives. *)
Lemma log_sentinel (l : Log) (ctx : option context) (severity message : string)
    (err : option string) (labels : list value) (w : World) :
  Nat.even (List.length labels) = false ->
  log l ctx severity message err labels w
  = log l ctx severity message err (labels ++ [missing]) w.
Proof. intros E. unfold log. now rewrite (balance_sentinel labels E). Qed.

Lemma writeLabels_sentinel (sb : string) (json : bool) (labels : list value) (w : World) :
  Nat.even (List.length labels) = false ->
  writeLabels sb json labels w = writeLabels sb json (labels ++ [missing]) w.
Proof. intros E. unfold writeLabels. now rewrite (balance_sentinel labels E). Qed.

(** The six operations that pass the caller's labels on unchanged treat an
    odd-length sequence as the sequence with the sentinel appended. *)
Lemma call_sentinel (s : Severity) (l : Log) (ctx : option context) (message : string)
    (err : option string) (labels : list value) (w : World) :
  s <> STrace ->
  Nat.even (List.length labels) = false ->
  call s l ctx message err labels w
  = call s l ctx message err (labels ++ [missing]) w.
Proof.
  intros Hs E. destruct s; try contradiction; cbn [call];
    unfold Fatal, Error, Warning, Notice, Info, Debug;
    destruct (Z.eqb _ 0); try reflexivity;
    unfold bind; now rewrite (log_sentinel _ _ _ _ _ labels _ E).
Qed.

(** The last, unpaired element becomes the key of a last field whose value
    is the sentinel. *)
Lemma fragment_sentinel (o c : string) (init : list value) (x : value) (inv : list nat) :
  Nat.even (List.length init) = true ->
  fragment o c inv (balance (init ++ [x]))
  = fragment o c inv init ++ (o ++ logKey x ++ c ++ dq ++ "#missing#" ++ dq).
Proof.
  intros E. rewrite balance_app by assumption.
  change (balance [x]) with [x; missing].
  rewrite fragment_app by assumption. simpl. now rewrite !append_nil_r.
Qed.

(** For an even-length sequence [Trace] writes the caller's fields, then
    the field [trace] with value [true], then the message. *)
Lemma Trace_even_labels (l : Log) (ctx : context) (message : string)
    (labels : list value) (w : World) :
  Nat.even (List.length labels) = true ->
  Z.testbit (outputMask l) (bitOf STrace) = true ->
  let json := outputJSON l in
  emitted w (Trace l (Some ctx) message labels w)
  = [(Writer l,
      headOf json (TraceIDFieldName w)
        (match Value ctx traceIDKey with Some (CtxString t) => t | _ => "" end)
        "DEBUG" (now w) None
      ++ commonLabels l
      ++ fragment (openFieldOf json) (closeFieldOf json) (invoked w) labels
      ++ field json "trace" "true"
      ++ tailOf json message)].
Proof.
  intros E B json.
  change (Trace l (Some ctx) message labels w)
    with (call STrace l (Some ctx) message None labels w).
  rewrite call_run, B, emitted_logged. unfold lineOf. cbn [labelsOf errorOf severityText].
  rewrite balance_app by assumption.
  change (balance [VString "trace"; VBool true]) with [VString "trace"; VBool true].
  rewrite fragment_app by assumption. fold json. simpl fragment.
  unfold field. cbn [append]. rewrite !append_assoc. reflexivity.
Qed.

(** For an odd-length sequence the forced pair is appended first and the
    sentinel after it: the caller's last element is paired with the string
    ["trace"], and [true] becomes a key paired with the sentinel. *)
Lemma Trace_odd_labels_walked (init : list value) (x : value) :
  Nat.even (List.length init) = true ->
  balance (labelsOf STrace (init ++ [x]))
  = (init ++ [x; VString "trace"; VBool true; missing])%list.
Proof.
  intros E. rewrite labelsOf_app, balance_app by assumption. reflexivity.
Qed.

End Derivation.

(** ** Concrete runs *)

Section Concrete.
#[local] Existing Instance demoRuntime.

(** C1, where the code departs from it. A JSON logger is built with one
    common label and a child is derived from it with another. The child
    has the parent's mask and sink and the two fragments one after the
    other, but its format is logfmt, not the parent's JSON: a line of the
    child has logfmt fields around common labels rendered for JSON. *)
Theorem C1_WithLabels_loses_format :
  let parent := mkLog (", " ++ quoted "app" ++ ": " ++ quoted "x") everyFlag true Stderr in
  let child :=
    mkLog (", " ++ quoted "app" ++ ": " ++ quoted "x" ++ ", " ++ quoted "k" ++ ": " ++ quoted "v")
          everyFlag false Stderr in
  New everyFlag true [VString "app"; VString "x"] world0 = Ok parent world0
  /\ WithLabels parent [VString "k"; VString "v"] world0 = Ok child world0
  /\ outputJSON parent = true
  /\ outputJSON child = false
  /\ emitted world0 (Info child (Some tracedCtx) "m" [] world0)
     = [(Stderr,
         "trace=" ++ quoted "t1" ++ " severity=" ++ quoted "INFO" ++ " timestamp=" ++ quoted "T"
         ++ ", " ++ quoted "app" ++ ": " ++ quoted "x" ++ ", " ++ quoted "k" ++ ": " ++ quoted "v"
         ++ " message=" ++ quoted "m" ++ nl)].
Proof. repeat split. Qed.

(** C4, where the code departs from it. [Trace] is called with the one
    label element ["k"]. The forced pair is appended before the sequence is
    balanced, so the line has the fields [k="trace"] and
    [true="#missing#"]: no field [trace=true] is in it, and the field
    before the message is not the forced one. *)
Theorem C4_Trace_odd_labels_lose_forced_label :
  emitted world0 (Trace logfmtLog (Some tracedCtx) "m" [VString "k"] world0)
  = [(Buffer 0,
      "trace=" ++ quoted "t1" ++ " severity=" ++ quoted "DEBUG" ++ " timestamp=" ++ quoted "T"
      ++ " k=" ++ quoted "trace" ++ " true=" ++ quoted "#missing#"
      ++ " message=" ++ quoted "m" ++ nl)].
Proof. reflexivity. Qed.

(** C5, where the code departs from it. The odd-length sequence ["k"] is
    passed to the severity operation [Trace]. The sentinel is appended, and
    nothing fails, but it is appended after the forced pair: the caller's
    unpaired ["k"] is paired with ["trace"], not with the sentinel, which
    becomes the value of the key [true]. *)
Theorem C5_Trace_sentinel_pairs_with_forced_key :
  balance (labelsOf STrace [VString "k"])
  = [VString "k"; VString "trace"; VBool true; VString "#missing#"]
  /\ emitted world0 (Trace jsonLog (Some tracedCtx) "m" [VString "k"] world0)
     = [(Buffer 0,
         "{ " ++ quoted "trace" ++ ": " ++ quoted "t1" ++ ", " ++ quoted "severity" ++ ": " ++ quoted "DEBUG"
         ++ ", " ++ quoted "timestamp" ++ ": " ++ quoted "T"
         ++ ", " ++ quoted "k" ++ ": " ++ quoted "trace"
         ++ ", " ++ quoted "true" ++ ": " ++ quoted "#missing#"
         ++ ", " ++ quoted "message" ++ ": " ++ quoted "m" ++ " }" ++ nl)]
  /\ emitted world0 (Debug jsonLog (Some tracedCtx) "m" [VString "k"] world0)
     = [(Buffer 0,
         "{ " ++ quoted "trace" ++ ": " ++ quoted "t1" ++ ", " ++ quoted "severity" ++ ": " ++ quoted "DEBUG"
         ++ ", " ++ quoted "timestamp" ++ ": " ++ quoted "T"
         ++ ", " ++ quoted "k" ++ ": " ++ quoted "#missing#"
         ++ ", " ++ quoted "message" ++ ": " ++ quoted "m" ++ " }" ++ nl)].
Proof. repeat split. Qed.

(** C6 fails as stated: [New] given the pair [1, "v"], whose key is an
    int, returns a logger in whose common labels that pair is not
    rendered under the [%v] text of its key. *)
Lemma C6_counterexample :
  ~ (exists l,
        New everyFlag true [VInt 1; VString "v"] world0 = Ok l world0
        /\ occurs_in (field true "1" (quoted "v")) (commonLabels l)).
Proof.
  intros (l & H & a & b & Hocc).
  assert (Hl : l = mkLog "" everyFlag true Stderr).
  { change (New everyFlag true [VInt 1; VString "v"] world0)
      with (Ok (mkLog "" everyFlag true Stderr) world0) in H.
    now injection H as <-. }
  subst l. simpl in Hocc. destruct a; discriminate Hocc.
Qed.

Lemma C6_witness :
  Nat.even (List.length (@nil value)) = true
  /\ isString (VInt 1) = false
  /\ ((exists a b,
          emitted world0
            (log jsonLog (Some tracedCtx) "INFO" "m" None ([] ++ [VInt 1; VString "v"]) world0)
          = [(Buffer 0,
              a ++ field true (Sprintv (VInt 1))
                     (valueText (invoked world0 ++ lazyIDs [])%list (VString "v"))
                ++ b)])
      /\ (forall mask json,
             New mask json ([] ++ [VInt 1; VString "v"]) world0
             = New mask json ([] ++ []) world0)
      /\ WithLabels jsonLog ([] ++ [VInt 1; VString "v"]) world0
         = WithLabels jsonLog ([] ++ []) world0).
Proof.
  split; [reflexivity|]. split; [reflexivity|].
  apply (C6_non_string_keys jsonLog tracedCtx "INFO" "m" None [] [] (VInt 1) (VString "v")
           world0); reflexivity.
Defined.

Lemma C2_witness :
  let l := mkLog "" OutputFlagError true (Buffer 0) in
  Z.testbit (outputMask l) (bitOf SWarning) = false
  /\ Z.testbit (outputMask l) (bitOf SError) = true
  /\ call SWarning l (Some tracedCtx) "x" None [] world0 = Ok tt world0
  /\ emitted world0 (call SError l (Some tracedCtx) "boom" (Some "io failure") [] world0)
     = [(Buffer 0,
         lineOf l tracedCtx "ERROR" "boom" (Some "io failure") [] world0)].
Proof.
  intros l. split; [reflexivity|]. split; [reflexivity|]. split.
  - apply (C2_mask_decides_output SWarning l "x" None [] world0). reflexivity.
  - apply (C2_mask_decides_output SError l "boom" (Some "io failure") [] world0). reflexivity.
Defined.

(** The line an enabled [Error] writes for the error text [io failure]:
    the error field follows the timestamp, the message comes last. *)
Example Error_line :
  lineOf (mkLog "" OutputFlagError true (Buffer 0)) tracedCtx "ERROR" "boom"
    (Some "io failure") [] world0
  = "{ " ++ quoted "trace" ++ ": " ++ quoted "t1" ++ ", " ++ quoted "severity" ++ ": " ++ quoted "ERROR"
    ++ ", " ++ quoted "timestamp" ++ ": " ++ quoted "T" ++ dq
    ++ ", " ++ quoted "error" ++ ": " ++ quoted "io failure"
    ++ ", " ++ quoted "message" ++ ": " ++ quoted "boom" ++ " }" ++ nl.
Proof. reflexivity. Qed.

Lemma C3_witness :
  let pre := [VString "a"; VInt 1] in
  let post := [VString "b"; VFuncBool (Thunk 3 (fun _ => true)); VString "odd"] in
  let viaLazy :=
    call STrace jsonLog (Some tracedCtx) "m" None
      (pre ++ VString "n" :: lazy KInt 7 42%Z :: post) world0 in
  let viaDirect :=
    call STrace jsonLog (Some tracedCtx) "m" None
      (pre ++ VString "n" :: direct KInt 42%Z :: post) world0 in
  Nat.even (List.length pre) = true
  /\ ~ In 7 (lazyIDs (pre ++ post))
  /\ emitted world0 viaLazy = emitted world0 viaDirect
  /\ (Z.testbit (outputMask jsonLog) (bitOf STrace) = true ->
      (exists line,
          emitted world0 viaLazy = [(Writer jsonLog, line)]
          /\ occurs_in (field (outputJSON jsonLog) (logKey (VString "n"))
                          (valueText [] (direct KInt 42%Z))) line)
      /\ invocations 7 (world_of viaLazy) = S (invocations 7 world0))
  /\ (Z.testbit (outputMask jsonLog) (bitOf STrace) = false ->
      invocations 7 (world_of viaLazy) = invocations 7 world0).
Proof.
  intros pre post viaLazy viaDirect.
  assert (E : Nat.even (List.length pre) = true) by reflexivity.
  assert (F : ~ In 7 (lazyIDs (pre ++ post))).
  { simpl. intros [H|[]]. discriminate H. }
  split; [exact E|]. split; [exact F|].
  exact (C3_lazy_matches_direct STrace jsonLog tracedCtx "m" None pre post (VString "n")
           KInt 7 42%Z world0 E F).
Defined.

Lemma C7_witness :
  "t1" <> ""
  /\ no_trace_id (Derived Background) = true
  /\ (exists c, ContextFrom (Some (Derived Background)) "t1" world0 = Ok c world0
                /\ TraceID (Some c) world0 = Ok "t1" world0)
  /\ TraceID (Some (Derived Background)) world0 = Ok "" world0.
Proof.
  split; [discriminate|]. split; [reflexivity|].
  destruct (C7_trace_id_round_trip (Derived Background) "t1" world0) as [H1 H2].
  split; [apply H1; discriminate | apply H2; reflexivity].
Defined.

Lemma C10_witness :
  let s := "a" ++ dq ++ "b" in
  let json := outputJSON jsonLog in
  Nat.even (List.length (@nil value)) = true
  /\ exists a b,
      emitted world0
        (log jsonLog (Some tracedCtx) "INFO" "say" (Some "e")
           ([] ++ VString "k" :: VString s :: []) world0)
      = [(Writer jsonLog,
          a ++ field json (logKey (VString "k")) (dq ++ s ++ dq)
            ++ b
            ++ field json "message" (dq ++ ReplaceAll "say" dq_char (bs ++ dq) ++ dq)
            ++ closeLogOf json ++ nl)]
      /\ quotes_escaped (ReplaceAll "say" dq_char (bs ++ dq)) = true
      /\ (occurs_in (field json "error" (dq ++ ReplaceAll "e" dq_char (bs ++ dq) ++ dq)) a
          /\ quotes_escaped (ReplaceAll "e" dq_char (bs ++ dq)) = true).
Proof.
  intros s json. split; [reflexivity|].
  exact (C10_string_values_verbatim jsonLog tracedCtx "INFO" "say" (Some "e") [] []
           (VString "k") s world0 eq_refl).
Defined.

(** A line that is not well-formed JSON: the value of [k] holds a double
    quote, which is written as it is, while the double quotes of the
    message are each preceded by a backslash. *)
Example unescaped_label_value :
  emitted world0
    (Info jsonLog (Some tracedCtx) ("say " ++ quoted "hi") [VString "k"; VString ("a" ++ dq ++ "b")]
       world0)
  = [(Buffer 0,
      "{ " ++ quoted "trace" ++ ": " ++ quoted "t1" ++ ", " ++ quoted "severity" ++ ": " ++ quoted "INFO"
      ++ ", " ++ quoted "timestamp" ++ ": " ++ quoted "T"
      ++ ", " ++ quoted "k" ++ ": " ++ dq ++ "a" ++ dq ++ "b" ++ dq
      ++ ", " ++ quoted "message" ++ ": " ++ dq ++ "say " ++ bs ++ dq ++ "hi" ++ bs ++ dq ++ dq
      ++ " }" ++ nl)].
Proof. reflexivity. Qed.

(** A generated identifier: the digits of the integer drawn fill the
    width. *)
Example generated_id :
  newSpanID world0 = Ok "1442695040888963407" (set_rngPos S world0).
Proof. reflexivity. Qed.

End Concrete.

(** * Further properties of the package *)

(** ** Masks *)

Section Masks.
Context {rt : Runtime}.

Lemma flag_bit (a s : Severity) : Z.testbit (flagOf a) (bitOf s) = true <-> a = s.
Proof. destruct a, s; simpl; split; intros H; try reflexivity; discriminate H. Qed.

Lemma maskOf_bit (ss : list Severity) (s : Severity) :
  Z.testbit (maskOf ss) (bitOf s) = true <-> In s ss.
Proof.
  induction ss as [|a ss IH]; simpl.
  - rewrite Z.bits_0. split; [discriminate | contradiction].
  - rewrite Z.lor_spec, orb_true_iff, IH, flag_bit. reflexivity.
Qed.

Lemma emitted_call (s : Severity) (l : Log) (ctx : context) (message : string)
    (err : option string) (labels : list value) (w : World) :
  emitted w (call s l (Some ctx) message err labels w)
  = if Z.testbit (outputMask l) (bitOf s)
    then [(Writer l,
           lineOf l ctx (severityText s) message (errorOf s err) (labelsOf s labels) w)]
    else [].
Proof.
  rewrite call_run. destruct (Z.testbit (outputMask l) (bitOf s)).
  - apply emitted_logged.
  - apply emitted_nothing.
Qed.

(** X1. The preset masks. A logger with [OutputMaskImportant] writes for
    [Fatal], [Error], [Warning] and [Notice] only; with [OutputMaskDetail]
    also for [Info]; with [OutputMaskAll] for every operation but [Trace],
    whose flag is in none of the presets. *)
Theorem X1_preset_masks (s : Severity) (common : string) (json : bool) (wr : ioWriter)
    (ctx : context) (message : string) (err : option string) (labels : list value)
    (w : World) :
  let writes mask :=
    emitted w (call s (mkLog common mask json wr) (Some ctx) message err labels w) <> [] in
  (writes OutputMaskImportant <-> s = SFatal \/ s = SError \/ s = SWarning \/ s = SNotice)
  /\ (writes OutputMaskDetail
      <-> s = SFatal \/ s = SError \/ s = SWarning \/ s = SNotice \/ s = SInfo)
  /\ (writes OutputMaskAll <-> s <> STrace).
Proof.
  intros writes. unfold writes. rewrite !emitted_call. cbn [outputMask].
  destruct s; cbn; repeat split; intros H; try discriminate; try congruence;
    try (exfalso; apply H; reflexivity);
    repeat match goal with
           | H : _ \/ _ |- _ => destruct H as [H|H]; try discriminate H
           end;
    auto 6.
Qed.

(** X2. A mask put together from flags with [|] lets exactly the listed
    severities through: the call writes a line iff its severity is among
    them. The flags are seven different bits. *)
Theorem X2_mask_of_flags (ss : list Severity) (s : Severity) (common : string)
    (json : bool) (wr : ioWriter) (ctx : context) (message : string)
    (err : option string) (labels : list value) (w : World) :
  emitted w (call s (mkLog common (maskOf ss) json wr) (Some ctx) message err labels w) <> []
  <-> In s ss.
Proof.
  rewrite emitted_call. cbn [outputMask]. rewrite <- maskOf_bit.
  destruct (Z.testbit (maskOf ss) (bitOf s)); split; intros H;
    try reflexivity; try discriminate; congruence.
Qed.

End Masks.

(** ** Configuring the default logger *)

Section Configure.
Context {rt : Runtime}.

Lemma SetLabels_run (labels : list value) (w : World) :
  SetLabels labels w
  = Ok tt (set_defaultLog
             (mkLog (commonFragment (openFieldOf (outputJSON (defaultLog w)))
                       (closeFieldOf (outputJSON (defaultLog w))) (balance labels))
                    (outputMask (defaultLog w)) (outputJSON (defaultLog w))
                    (Writer (defaultLog w))) w).
Proof.
  unfold SetLabels, bind, getDefaultLog, putDefaultLog. rewrite New_run. reflexivity.
Qed.

Lemma SetOutputJSON_run (v : bool) (w : World) :
  SetOutputJSON v w
  = Ok tt (set_defaultLog
             (mkLog "" (outputMask (defaultLog w)) v (Writer (defaultLog w))) w).
Proof.
  unfold SetOutputJSON, bind, getDefaultLog, putDefaultLog. rewrite New_run. reflexivity.
Qed.

(** X3. [SetLabels] replaces the common labels of the default logger, it
    does not add to them: after two calls only the labels of the second are
    set. Mask, format and writer stay as they were. *)
Theorem X3_SetLabels_replaces (first second : list value) (w : World) :
  (SetLabels first ;; SetLabels second) w = SetLabels second w
  /\ exists w',
       SetLabels second w = Ok tt w'
       /\ outputMask (defaultLog w') = outputMask (defaultLog w)
       /\ outputJSON (defaultLog w') = outputJSON (defaultLog w)
       /\ Writer (defaultLog w') = Writer (defaultLog w)
       /\ New (outputMask (defaultLog w)) (outputJSON (defaultLog w)) second w
          = Ok (mkLog (commonLabels (defaultLog w')) (outputMask (defaultLog w))
                      (outputJSON (defaultLog w)) Stderr) w.
Proof.
  split.
  - unfold bind. rewrite !SetLabels_run. reflexivity.
  - rewrite SetLabels_run, New_run. eexists. repeat split.
Qed.

(** X4. The order of [SetOutputJSON] and [SetLabels] matters. Format first,
    labels second: the labels are set, rendered in the new format. Labels
    first, format second: the result is that of [SetOutputJSON] alone, the
    labels are gone. *)
Theorem X4_format_before_labels (v : bool) (labels : list value) (w : World) :
  (SetOutputJSON v ;; SetLabels labels) w
  = Ok tt (set_defaultLog
             (mkLog (commonFragment (openFieldOf v) (closeFieldOf v) (balance labels))
                    (outputMask (defaultLog w)) v (Writer (defaultLog w))) w)
  /\ (SetLabels labels ;; SetOutputJSON v) w = SetOutputJSON v w.
Proof.
  unfold bind. split.
  - rewrite SetOutputJSON_run, SetLabels_run. reflexivity.
  - rewrite SetLabels_run, !SetOutputJSON_run. reflexivity.
Qed.

(** X5. After [SetWriter wr] and [SetOutputMask m], in either order, a
    free-standing severity function writes its line to [wr], and it writes
    one exactly when [m] has the bit of the severity; format and common
    labels of the default logger are the ones it had. *)
Theorem X5_SetWriter_SetOutputMask (wr : ioWriter) (m : Z) (s : Severity) (ctx : context)
    (message : string) (err : option string) (labels : list value) (w : World) :
  let d := defaultLog w in
  let d' := mkLog (commonLabels d) m (outputJSON d) wr in
  (SetWriter wr ;; SetOutputMask m) w = Ok tt (set_defaultLog d' w)
  /\ (SetOutputMask m ;; SetWriter wr) w = Ok tt (set_defaultLog d' w)
  /\ emitted w ((SetWriter wr ;; SetOutputMask m ;;
                 callDefault s (Some ctx) message err labels) w)
     = if Z.testbit m (bitOf s)
       then [(wr, lineOf d' ctx (severityText s) message (errorOf s err)
                    (labelsOf s labels) w)]
       else [].
Proof.
  intros d d'. repeat split.
  unfold bind at 1 2. unfold SetWriter, SetOutputMask, bind, getDefaultLog, putDefaultLog.
  cbn [defaultLog set_defaultLog commonLabels outputMask outputJSON Writer].
  fold d. fold d'. unfold callDefault, bind, getDefaultLog.
  cbn [defaultLog set_defaultLog].
  rewrite call_run. cbn [outputMask d'].
  destruct (Z.testbit m (bitOf s)).
  - unfold emitted, afterCall, logged. destruct s; simpl; apply skipn_past.
  - unfold emitted. simpl. apply skipn_all_self.
Qed.

End Configure.

(** ** Common labels and derivation *)

Section Common.
Context {rt : Runtime}.

Lemma commonValue_lazy (kd : lazyKind) (id : nat) (v : resultOf kd) :
  commonValue (lazy kd id v) = SprintFunc id.
Proof. destruct kd; reflexivity. Qed.

Lemma invoked_call (s : Severity) (l : Log) (ctx : context) (message : string)
    (err : option string) (labels : list value) (w : World) :
  invoked (world_of (call s l (Some ctx) message err labels w))
  = if Z.testbit (outputMask l) (bitOf s)
    then (invoked w ++ lazyIDs labels)%list
    else invoked w.
Proof.
  rewrite call_run. destruct (Z.testbit (outputMask l) (bitOf s)); [|reflexivity].
  apply invoked_afterCall.
Qed.

(** X6. A lazy function given as the value of a common label is never
    run: [New] leaves the world as it is and renders the function by its
    [%v] text, and no later call of the logger runs it either (unless the
    function is also given as a call-site label value of that call). *)
Theorem X6_common_lazy_never_runs (mask : Z) (json : bool) (pre post : list value)
    (key : string) (kd : lazyKind) (id : nat) (v : resultOf kd) (w : World) :
  Nat.even (List.length pre) = true ->
  exists l,
    New mask json (pre ++ VString key :: lazy kd id v :: post) w = Ok l w
    /\ occurs_in (field json key (SprintFunc id)) (commonLabels l)
    /\ forall (s : Severity) (ctx : context) (message : string) (err : option string)
              (labels : list value) (w1 : World),
         ~ In id (lazyIDs labels) ->
         invocations id (world_of (call s l (Some ctx) message err labels w1))
         = invocations id w1.
Proof.
  intros E. rewrite New_run. eexists. split; [reflexivity|]. split.
  - cbn [commonLabels]. rewrite balance_app, balance_cons2 by assumption.
    rewrite commonFragment_app by assumption. cbn [commonFragment].
    rewrite commonValue_lazy. unfold field.
    apply occurs_in_append_l. eexists "", _. cbn [append]. rewrite !append_assoc.
    reflexivity.
  - intros s ctx message err labels w1 Hid. unfold invocations.
    rewrite invoked_call. destruct (Z.testbit _ _); [|reflexivity].
    rewrite count_occ_app.
    rewrite (proj1 (count_occ_not_In Nat.eq_dec _ _) Hid). lia.
Qed.

(** X7. What [WithLabels] keeps, for every logger and label sequence: the
    mask and the sink are the parent's, the common labels are the parent's
    followed by what [New] renders for the new labels in the parent's
    format; the call cannot fail and changes nothing in the world. *)
Theorem X7_WithLabels_keeps (l : Log) (labels : list value) (w : World) :
  exists child fresh,
    WithLabels l labels w = Ok child w
    /\ New (outputMask l) (outputJSON l) labels w = Ok fresh w
    /\ outputMask child = outputMask l
    /\ Writer child = Writer l
    /\ commonLabels child = commonLabels l ++ commonLabels fresh.
Proof.
  rewrite WithLabels_run, New_run. eexists _, _. repeat split; reflexivity.
Qed.

(** X8. For a logfmt logger deriving twice is deriving once with the two
    label sequences joined, provided the first has even length; and a
    logfmt logger built by [New] and then extended is the logger built by
    [New] with all the labels. *)
Theorem X8_WithLabels_composes (l : Log) (first second : list value) (w : World) :
  outputJSON l = false ->
  Nat.even (List.length first) = true ->
  (child <- WithLabels l first ;; WithLabels child second) w
  = WithLabels l (first ++ second) w
  /\ (forall mask,
         (fresh <- New mask false first ;; WithLabels fresh second) w
         = New mask false (first ++ second) w).
Proof.
  intros J E. unfold bind. split.
  - rewrite !WithLabels_run. cbn [commonLabels outputMask outputJSON Writer].
    rewrite J, (balance_app first second E), (balance_of_even first E).
    rewrite commonFragment_app by assumption. now rewrite append_assoc.
  - intros mask. rewrite !New_run, WithLabels_run.
    cbn [commonLabels outputMask outputJSON Writer].
    rewrite (balance_app first second E), (balance_of_even first E).
    now rewrite commonFragment_app by assumption.
Qed.

(** X9. The line of a derived logger, field by field: the head, the
    parent's common labels, the labels added by [WithLabels] (rendered in
    the parent's format), the call-site labels, the message. It goes to
    the parent's sink and is written under the parent's mask. *)
Theorem X9_derived_line_order (l : Log) (added : list value) (s : Severity) (ctx : context)
    (message : string) (err : option string) (labels : list value) (w : World) :
  exists child,
    WithLabels l added w = Ok child w
    /\ emitted w (call s child (Some ctx) message err labels w)
       = if Z.testbit (outputMask l) (bitOf s)
         then [(Writer l,
                headOf (outputJSON child) (TraceIDFieldName w)
                  (match Value ctx traceIDKey with Some (CtxString t) => t | _ => "" end)
                  (severityText s) (now w) (errorOf s err)
                ++ commonLabels l
                ++ commonFragment (openFieldOf (outputJSON l)) (closeFieldOf (outputJSON l))
                     (balance added)
                ++ fragment (openFieldOf (outputJSON child)) (closeFieldOf (outputJSON child))
                     (invoked w) (balance (labelsOf s labels))
                ++ tailOf (outputJSON child) message)]
         else [].
Proof.
  rewrite WithLabels_run. eexists. split; [reflexivity|].
  rewrite emitted_call. cbn [outputMask Writer outputJSON].
  destruct (Z.testbit (outputMask l) (bitOf s)); [|reflexivity].
  unfold lineOf. cbn [commonLabels outputJSON]. now rewrite !append_assoc.
Qed.

(** A label sequence without lazy parts renders the same in [writeLabels]
    and in [log]. *)
Lemma commonFragment_plain (o c : string) (inv : list nat) (labels : list value) :
  Nat.even (List.length labels) = true ->
  plainLabels labels = true ->
  commonFragment o c labels = fragment o c inv labels.
Proof.
  intros E. revert inv. pattern labels. revert labels E. apply pairs_ind.
  - reflexivity.
  - intros k v l _ IH inv H. cbn [plainLabels] in H.
    apply andb_true_iff in H as [H Hl]. apply andb_true_iff in H as [Hk Hv].
    destruct k; try discriminate Hk.
    cbn [commonFragment fragment logKey].
    assert (Hc : callsOf v = []).
    { unfold callsOf. unfold isLazy in Hv. now destruct (funcID v). }
    rewrite Hc, app_nil_r, (IH inv Hl). do 2 f_equal.
    destruct v; try reflexivity; discriminate Hv.
Qed.

Lemma plainLabels_balance (labels : list value) :
  plainLabels labels = true -> plainLabels (balance labels) = true.
Proof.
  unfold balance. destruct (negb _); [|trivial].
  pattern labels. revert labels. apply pairs_rect_any.
  - reflexivity.
  - intros x H. cbn in H |- *. now rewrite H.
  - intros k v l IH H. cbn [plainLabels] in H |- *.
    apply andb_true_iff in H as [H Hl]. cbn [app]. cbn [plainLabels].
    now rewrite H, (IH Hl).
Qed.

Lemma lazyIDs_plain (labels : list value) :
  plainLabels labels = true -> lazyIDs labels = [].
Proof.
  pattern labels. revert labels. apply pairs_rect_any.
  - reflexivity.
  - reflexivity.
  - intros k v l IH H. cbn [plainLabels] in H.
    apply andb_true_iff in H as [H Hl]. apply andb_true_iff in H as [_ Hv].
    cbn [lazyIDs]. rewrite (IH Hl). unfold callsOf. unfold isLazy in Hv.
    now destruct (funcID v).
Qed.

(** X10. Labels with string keys and no lazy function as a value may be
    set once as common labels or given at each call: a logger built by
    [New] with them and called with no labels writes the same line as the
    logger built without labels and called with them. *)
Theorem X10_common_or_call_site (mask : Z) (json : bool) (labels : list value)
    (ctx : context) (severity message : string) (err : option string) (w : World) :
  plainLabels labels = true ->
  (withCommon <- New mask json labels ;; log withCommon (Some ctx) severity message err []) w
  = (bare <- New mask json [] ;; log bare (Some ctx) severity message err labels) w.
Proof.
  intros P. unfold bind. rewrite !New_run, !log_run. f_equal.
  unfold logged. cbn [Writer].
  pose proof (plainLabels_balance labels P) as PB.
  pose proof (balance_even labels) as EB.
  pose proof (lazyIDs_plain (balance labels) PB) as Hids.
  rewrite Hids. unfold lineOf. cbn [commonLabels outputJSON].
  change (balance []) with (@nil value). cbn [commonFragment fragment lazyIDs].
  rewrite (commonFragment_plain _ _ (invoked w) (balance labels) EB PB).
  reflexivity.
Qed.

End Common.

(** ** Effects and edge cases of a call *)

Section Effects.
Context {rt : Runtime}.

Lemma SetLabels_sentinel (labels : list value) (w : World) :
  Nat.even (List.length labels) = false ->
  SetLabels labels w = SetLabels (labels ++ [missing]) w.
Proof. intros E. rewrite !SetLabels_run. now rewrite (balance_sentinel labels E). Qed.

(** X11. An odd-length label sequence is handled as the same sequence
    with ["#missing#"] appended by [Fatal], [Error], [Warning], [Notice],
    [Info] and [Debug], whatever the context, and by [New], [WithLabels]
    and [SetLabels]: same result, same world. None of them fails on it. *)
Theorem X11_odd_labels_get_sentinel (labels : list value) (s : Severity) (l : Log)
    (ctx : option context) (message : string) (err : option string) (mask : Z)
    (json : bool) (w : World) :
  Nat.even (List.length labels) = false ->
  (s <> STrace ->
   call s l ctx message err labels w = call s l ctx message err (labels ++ [missing]) w)
  /\ New mask json labels w = New mask json (labels ++ [missing]) w
  /\ WithLabels l labels w = WithLabels l (labels ++ [missing]) w
  /\ SetLabels labels w = SetLabels (labels ++ [missing]) w
  /\ (exists fresh child, New mask json labels w = Ok fresh w
                          /\ WithLabels l labels w = Ok child w).
Proof.
  intros E. split; [|split; [|split; [|split]]].
  - intros Hs. now apply call_sentinel.
  - unfold New, bind. now rewrite (writeLabels_sentinel _ _ labels _ E).
  - unfold WithLabels, bind. now rewrite (writeLabels_sentinel _ _ labels _ E).
  - now apply SetLabels_sentinel.
  - rewrite New_run, WithLabels_run. eexists _, _. split; reflexivity.
Qed.

(** X12. For an even-length label sequence [Trace] writes the line
    [Debug] writes with one more field, [trace] with the value [true],
    between the caller's last label and the message. *)
Theorem X12_Trace_is_Debug_plus_field (l : Log) (ctx : context) (message : string)
    (labels : list value) (w : World) :
  Nat.even (List.length labels) = true ->
  Z.testbit (outputMask l) (bitOf STrace) = true ->
  Z.testbit (outputMask l) (bitOf SDebug) = true ->
  exists body,
    emitted w (Debug l (Some ctx) message labels w)
    = [(Writer l, body ++ tailOf (outputJSON l) message)]
    /\ emitted w (Trace l (Some ctx) message labels w)
       = [(Writer l,
           body ++ field (outputJSON l) "trace" "true" ++ tailOf (outputJSON l) message)]
    /\ invoked (world_of (Trace l (Some ctx) message labels w))
       = invoked (world_of (Debug l (Some ctx) message labels w)).
Proof.
  intros E T D.
  eexists (headOf (outputJSON l) (TraceIDFieldName w) _ "DEBUG" (now w) None
           ++ commonLabels l
           ++ fragment (openFieldOf (outputJSON l)) (closeFieldOf (outputJSON l))
                (invoked w) labels).
  split; [|split].
  - change (Debug l (Some ctx) message labels w)
      with (call SDebug l (Some ctx) message None labels w).
    rewrite emitted_call, D. unfold lineOf. cbn [labelsOf errorOf severityText].
    rewrite (balance_of_even labels E). now rewrite !append_assoc.
  - rewrite (Trace_even_labels l ctx message labels w E T). cbv zeta.
    now rewrite !append_assoc.
  - change (Debug l (Some ctx) message labels w)
      with (call SDebug l (Some ctx) message None labels w).
    change (Trace l (Some ctx) message labels w)
      with (call STrace l (Some ctx) message None labels w).
    now rewrite !invoked_call, T, D.
Qed.

(** X13. The lazy functions a call runs are those at the value positions
    of the caller's labels, from left to right, one run per position; a
    call whose flag is absent runs none. A function standing at a key
    position, or left unpaired at the end, is not run. *)
Theorem X13_lazy_functions_run_in_order (s : Severity) (l : Log) (ctx : context)
    (message : string) (err : option string) (labels : list value) (w : World) :
  invoked (world_of (call s l (Some ctx) message err labels w))
  = (if Z.testbit (outputMask l) (bitOf s)
     then invoked w ++ lazyIDs labels
     else invoked w)%list
  /\ (forall k v rest, lazyIDs (k :: v :: rest) = callsOf v ++ lazyIDs rest)%list
  /\ (forall k : value, lazyIDs [k] = []).
Proof. split; [apply invoked_call | split; intros; reflexivity]. Qed.

(** X14. A nil context. A call whose flag is set panics on it before
    anything happens: nothing is written, no lazy function is run, the
    termination hook is not run. [ContextFrom] panics on it as well,
    whatever the identifier, and draws nothing from the random source. *)
Theorem X14_nil_context (s : Severity) (l : Log) (message : string)
    (err : option string) (labels : list value) (traceID : string) (w : World) :
  Z.testbit (outputMask l) (bitOf s) = true ->
  (exists msg, call s l None message err labels w = Panic msg w)
  /\ emitted w (call s l None message err labels w) = []
  /\ exists msg, ContextFrom None traceID w = Panic msg w.
Proof.
  intros E. destruct (call_nil_context s l message err labels w E) as [msg H].
  rewrite H. split; [now exists msg|]. split.
  - unfold emitted. simpl. apply skipn_all_self.
  - eexists. reflexivity.
Qed.

Lemma lineOf_end (l : Log) (ctx : context) (severity message : string)
    (err : option string) (labels : list value) (w : World) :
  exists body,
    lineOf l ctx severity message err labels w
    = body ++ dq ++ closeLogOf (outputJSON l) ++ nl.
Proof.
  set (json := outputJSON l).
  exists (headOf json (TraceIDFieldName w)
            (match Value ctx traceIDKey with Some (CtxString t) => t | _ => "" end)
            severity (now w) err
          ++ commonLabels l
          ++ fragment (openFieldOf json) (closeFieldOf json) (invoked w) (balance labels)
          ++ (openFieldOf json ++ "message" ++ closeFieldOf json ++ dq)
          ++ escapeQuotes message).
  unfold lineOf, tailOf. fold json. rewrite !append_assoc. reflexivity.
Qed.

(** X15. What a call can change. Whatever the context and the outcome,
    the sink only grows, by at most one write, which goes to the logger's
    own writer and ends with a double quote, the closing of the format and
    the line terminator; the termination hook runs once if the call is a
    [Fatal] that wrote its line and not otherwise; the random source, the
    clock, the trace field name and the default logger are untouched. *)
Theorem X15_call_effects (s : Severity) (l : Log) (ctx : option context)
    (message : string) (err : option string) (labels : list value) (w : World) :
  let r := call s l ctx message err labels w in
  written (world_of r) = (written w ++ emitted w r)%list
  /\ (emitted w r = []
      \/ exists body,
           emitted w r = [(Writer l, body ++ dq ++ closeLogOf (outputJSON l) ++ nl)])
  /\ terminated (world_of r)
     = (terminated w + if isFatal s then List.length (emitted w r) else 0)%nat
  /\ rngPos (world_of r) = rngPos w
  /\ now (world_of r) = now w
  /\ TraceIDFieldName (world_of r) = TraceIDFieldName w
  /\ defaultLog (world_of r) = defaultLog w.
Proof.
  intros r. unfold r. clear r.
  assert (Hsame : forall A (r : Result A),
             world_of r = w ->
             written (world_of r) = (written w ++ emitted w r)%list
             /\ emitted w r = []
             /\ terminated (world_of r) = (terminated w + 0)%nat).
  { intros A r Hr. unfold emitted. rewrite Hr, skipn_all_self, app_nil_r.
    repeat split. lia. }
  destruct (Z.testbit (outputMask l) (bitOf s)) eqn:B.
  - destruct ctx as [ctx|].
    + rewrite call_run, B, emitted_logged. unfold afterCall, logged.
      destruct (lineOf_end l ctx (severityText s) message (errorOf s err)
                  (labelsOf s labels) w) as [body ->].
      split; [|split; [|split; [|repeat split]]]; try (destruct s; reflexivity).
      * right. now exists body.
      * destruct s; simpl; lia.
    + destruct (call_nil_context s l message err labels w B) as [msg ->].
      destruct (Hsame unit (Panic msg w) eq_refl) as (H1 & H2 & H3).
      rewrite H2 in *. split; [|split; [|split; [|repeat split]]]; auto.
      destruct s; simpl; lia.
  - rewrite (call_disabled s l ctx message err labels w B).
    destruct (Hsame unit (Ok tt w) eq_refl) as (H1 & H2 & H3).
    rewrite H2 in *. split; [|split; [|split; [|repeat split]]]; auto.
    destruct s; simpl; lia.
Qed.

End Effects.

(** ** Trace identifiers *)

(** The decimal rendering of an integer below [10 ^ k] has at most [k]
    digits. *)

Lemma of_uint_acc_lower (d : Decimal.uint) :
  forall acc : positive,
    (Z.pos acc * 10 ^ Z.of_nat (Decimal.nb_digits d) <= Z.pos (Pos.of_uint_acc d acc))%Z.
Proof.
  induction d; intros acc; cbn [Decimal.nb_digits Pos.of_uint_acc];
    [ simpl; lia | .. ];
    (etransitivity; [|apply IHd]);
    rewrite Nat2Z.inj_succ, Z.pow_succ_r by lia;
    assert (0 < 10 ^ Z.of_nat (Decimal.nb_digits d))%Z by (apply Z.pow_pos_nonneg; lia);
    nia.
Qed.

Lemma of_uint_lower (d : Decimal.uint) :
  Decimal.nzhead d = d -> d <> Decimal.Nil ->
  (10 ^ (Z.of_nat (Decimal.nb_digits d) - 1) <= Z.of_N (Pos.of_uint d))%Z.
Proof.
  intros Hn Hd. destruct d; try congruence;
    cbn [Decimal.nb_digits Pos.of_uint];
    rewrite ?Nat2Z.inj_succ;
    try (replace (Z.succ (Z.of_nat (Decimal.nb_digits d)) - 1)%Z
           with (Z.of_nat (Decimal.nb_digits d)) by lia;
         match goal with
         | |- (_ <= Z.of_N (N.pos (Pos.of_uint_acc _ ?a)))%Z =>
             pose proof (of_uint_acc_lower d a)
         end;
         assert (0 < 10 ^ Z.of_nat (Decimal.nb_digits d))%Z by (apply Z.pow_pos_nonneg; lia);
         simpl Z.of_N; nia).
  exfalso. pose proof (DecimalFacts.nb_digits_nzhead d) as H.
  cbn [Decimal.nzhead] in Hn. rewrite Hn in H. cbn [Decimal.nb_digits] in H. lia.
Qed.

Lemma to_uint_normal (p : positive) : Decimal.nzhead (Pos.to_uint p) = Pos.to_uint p.
Proof.
  pose proof (DecimalPos.Unsigned.to_of (Pos.to_uint p)) as H.
  rewrite DecimalPos.Unsigned.of_to in H. cbn [N.to_uint] in H.
  destruct (Decimal.nzhead (Pos.to_uint p)) eqn:E;
    try (rewrite <- E; rewrite <- DecimalFacts.unorm_nzhead; [now symmetry | rewrite E; discriminate]).
  exfalso. unfold Decimal.unorm in H. rewrite E in H.
  now apply (DecimalPos.Unsigned.to_uint_nonzero p).
Qed.

Lemma nb_digits_bound (p : positive) (k : nat) :
  (Z.pos p < 10 ^ Z.of_nat k)%Z -> Decimal.nb_digits (Pos.to_uint p) <= k.
Proof.
  intros H.
  pose proof (of_uint_lower (Pos.to_uint p) (to_uint_normal p)
                (DecimalPos.Unsigned.to_uint_nonnil p)) as L.
  rewrite DecimalPos.Unsigned.of_to in L. simpl Z.of_N in L.
  destruct (Nat.le_gt_cases (Decimal.nb_digits (Pos.to_uint p)) k) as [|G]; [assumption|].
  exfalso.
  assert (10 ^ Z.of_nat k <= 10 ^ (Z.of_nat (Decimal.nb_digits (Pos.to_uint p)) - 1))%Z
    by (apply Z.pow_le_mono_r; lia).
  lia.
Qed.

Lemma length_string_of_uint (d : Decimal.uint) :
  String.length (NilEmpty.string_of_uint d) = Decimal.nb_digits d.
Proof. induction d; simpl; congruence. Qed.

Lemma Itoa_length (n : Z) :
  (0 <= n < 2 ^ 63)%Z -> 1 <= String.length (Itoa n) <= 19.
Proof.
  intros [H0 H1]. unfold Itoa. destruct n as [|p|p]; [simpl; lia | | lia].
  cbn [Z.to_int NilZero.string_of_int]. unfold NilZero.string_of_uint.
  pose proof (DecimalPos.Unsigned.to_uint_nonnil p) as NN.
  destruct (Pos.to_uint p) eqn:E; try congruence;
    rewrite <- E, length_string_of_uint;
    (split; [rewrite E; simpl; lia | apply nb_digits_bound; simpl Z.of_nat; lia]).
Qed.

Lemma allDigits_string_of_uint (d : Decimal.uint) :
  allDigits (NilEmpty.string_of_uint d) = true.
Proof. induction d; simpl; try rewrite IHd; reflexivity. Qed.

Lemma Itoa_digits (n : Z) : (0 <= n)%Z -> allDigits (Itoa n) = true.
Proof.
  intros H. unfold Itoa. destruct n as [|p|p]; [reflexivity | | lia].
  cbn [Z.to_int NilZero.string_of_int]. unfold NilZero.string_of_uint.
  destruct (Pos.to_uint p) eqn:E; try reflexivity;
    rewrite <- E; apply allDigits_string_of_uint.
Qed.

Section TraceIDs.
Context {rt : Runtime}.

Lemma Itoa_parses_back (n : Z) :
  option_map Z.of_int (NilZero.int_of_string (Itoa n)) = Some n.
Proof.
  unfold Itoa. rewrite NilZero.isi.
  - simpl. now rewrite DecimalZ.of_to.
  - destruct n as [|p|p]; simpl; try discriminate.
    intros [= H]. now apply (DecimalPos.Unsigned.to_uint_nonnil p).
  - destruct n as [|p|p]; simpl; try discriminate.
    intros [= H]. now apply (DecimalPos.Unsigned.to_uint_nonnil p).
Qed.

(** X16. A generated identifier is the whole decimal rendering of the
    integer drawn, 1 to 19 digits, followed by as many [X] as it takes to
    reach 19 characters: the cut to the width never removes a digit. The
    integer drawn is the [n] that [r.Int()] returns in that world, and its
    rendering [Itoa n] reads back as [n]. *)
Theorem X16_generated_id_keeps_digits (w : World) :
  let n := Z.land (rngSource (rngPos w)) (2 ^ 63 - 1) in
  let digits := Itoa n in
  Int w = Ok n (set_rngPos S w)
  /\ newSpanID w
     = Ok (digits ++ substring 0 (19 - String.length digits) pad) (set_rngPos S w)
  /\ option_map Z.of_int (NilZero.int_of_string digits) = Some n
  /\ allDigits digits = true
  /\ 1 <= String.length digits <= 19.
Proof.
  intros n digits. pose proof (drawn_range (rngSource (rngPos w))) as Hr. fold n in Hr.
  split; [reflexivity|]. split; [|split; [|split]].
  - unfold newSpanID, bind, Int. fold n. rewrite spanIDOf_total. unfold ret. f_equal.
    apply substring_0_append. now apply Itoa_length.
  - apply Itoa_parses_back.
  - apply Itoa_digits. lia.
  - now apply Itoa_length.
Qed.

Lemma newSpanID_run (w : World) :
  exists s, newSpanID w = Ok s (set_rngPos S w) /\ String.length s = 19.
Proof.
  destruct (Int_range w) as (n & Hn & _).
  exists (substring 0 19 (Itoa n ++ pad)). split.
  - unfold newSpanID, bind. now rewrite Hn, spanIDOf_total.
  - apply length_substring_0. rewrite length_append. simpl. lia.
Qed.

Lemma ContextFrom_run (ctx : context) (traceID : string) (w : World) :
  exists tid w',
    ContextFrom (Some ctx) traceID w = Ok (WithValue ctx traceIDKey (CtxString tid)) w'
    /\ tid <> ""
    /\ (traceID <> "" -> tid = traceID /\ w' = w)
    /\ (traceID = "" -> String.length tid = 19 /\ w' = set_rngPos S w).
Proof.
  unfold ContextFrom, bind. destruct (String.eqb_spec traceID "") as [->|Hne].
  - destruct (newSpanID_run w) as (s & Hs & Hl).
    rewrite Hs. exists s, (set_rngPos S w). split; [reflexivity|].
    split; [|split; [congruence | auto]].
    intros ->. discriminate Hl.
  - exists traceID, w. split; [reflexivity|]. split; [assumption|].
    split; [auto | contradiction].
Qed.

End TraceIDs.

(** ** Contexts and the lines written under them *)

Section Traced.
Context {rt : Runtime}.

Lemma lineOf_start (l : Log) (ctx : context) (severity message : string)
    (err : option string) (labels : list value) (w : World) :
  let json := outputJSON l in
  let tid := match Value ctx traceIDKey with Some (CtxString t) => t | _ => "" end in
  exists rest,
    lineOf l ctx severity message err labels w
    = openLogOf json ++ TraceIDFieldName w ++ closeFieldOf json ++ quoted tid ++ rest.
Proof.
  intros json tid.
  set (o := openFieldOf json). set (c := closeFieldOf json).
  exists ((o ++ "severity" ++ c ++ dq ++ severity)
          ++ (dq ++ o ++ "timestamp" ++ c ++ dq)
          ++ now w ++ dq
          ++ match err with
             | Some e => dq ++ o ++ "error" ++ c ++ dq ++ escapeQuotes e ++ dq
             | None => ""
             end
          ++ commonLabels l
          ++ fragment o c (invoked w) (balance labels)
          ++ tailOf json message).
  unfold lineOf, headOf, quoted. fold json tid o c.
  destruct err; rewrite !append_assoc; reflexivity.
Qed.

(** X17. Every line written under a context returned by [ContextFrom]
    starts with the trace field and holds the identifier of that context,
    whichever logger and severity operation writes it. The identifier is
    never empty: it is the one passed, or a generated one of 19 characters
    when the one passed is empty. *)
Theorem X17_lines_carry_trace_id (ctx : context) (traceID : string) (w : World) :
  exists c tid w',
    ContextFrom (Some ctx) traceID w = Ok c w'
    /\ tid <> ""
    /\ (traceID <> "" -> tid = traceID /\ w' = w)
    /\ (traceID = "" -> String.length tid = 19)
    /\ (forall w1, TraceID (Some c) w1 = Ok tid w1)
    /\ forall (s : Severity) (l : Log) (message : string) (err : option string)
              (labels : list value) (w1 : World),
         Z.testbit (outputMask l) (bitOf s) = true ->
         exists rest,
           emitted w1 (call s l (Some c) message err labels w1)
           = [(Writer l,
               openLogOf (outputJSON l) ++ TraceIDFieldName w1
               ++ closeFieldOf (outputJSON l) ++ quoted tid ++ rest)].
Proof.
  destruct (ContextFrom_run ctx traceID w) as (tid & w' & Hc & Hne & Hgiven & Hgen).
  exists (WithValue ctx traceIDKey (CtxString tid)), tid, w'.
  split; [exact Hc|]. split; [exact Hne|]. split; [exact Hgiven|].
  split; [intros E; apply (Hgen E)|]. split; [reflexivity|].
  intros s l message err labels w1 B. rewrite emitted_call, B.
  destruct (lineOf_start l (WithValue ctx traceIDKey (CtxString tid)) (severityText s)
              message (errorOf s err) (labelsOf s labels) w1) as [rest Hrest].
  exists rest. rewrite Hrest. reflexivity.
Qed.

(** X18. Contexts nest. An identifier attached to a context that already
    carries one takes its place for the new context, while the parent
    keeps its own; values other packages attached to the parent are still
    found in the new context. *)
Theorem X18_ContextFrom_nests (ctx : context) (outer inner : string) (w : World) :
  outer <> "" -> inner <> "" ->
  exists c1 c2,
    ContextFrom (Some ctx) outer w = Ok c1 w
    /\ ContextFrom (Some c1) inner w = Ok c2 w
    /\ TraceID (Some c2) w = Ok inner w
    /\ TraceID (Some c1) w = Ok outer w
    /\ forall n, Value c2 (foreignKey n) = Value ctx (foreignKey n).
Proof.
  intros Ho Hi. unfold ContextFrom, bind.
  destruct (String.eqb_spec outer "") as [->|_]; [contradiction|].
  destruct (String.eqb_spec inner "") as [->|_]; [contradiction|].
  eexists _, _. repeat split.
Qed.

(** X19. A message or an error text with no double quote in it is written
    byte for byte: nothing but the double quote is ever replaced, so a line
    terminator inside a message is written as it is. *)
Theorem X19_text_without_quote_is_verbatim (l : Log) (ctx : context)
    (severity message : string) (err : option string) (labels : list value) (w : World) :
  Contains message dq_char = false ->
  exists body,
    emitted w (log l (Some ctx) severity message err labels w)
    = [(Writer l,
        body ++ field (outputJSON l) "message" (quoted message)
          ++ closeLogOf (outputJSON l) ++ nl)]
    /\ forall e, err = Some e -> Contains e dq_char = false ->
                 occurs_in (field (outputJSON l) "error" (quoted e)) body.
Proof.
  intros Hm. rewrite emitted_log.
  set (json := outputJSON l).
  exists (headOf json (TraceIDFieldName w)
            (match Value ctx traceIDKey with Some (CtxString t) => t | _ => "" end)
            severity (now w) err
          ++ commonLabels l
          ++ fragment (openFieldOf json) (closeFieldOf json) (invoked w) (balance labels)).
  split.
  - unfold lineOf. fold json. rewrite tailOf_shape.
    rewrite (ReplaceAll_absent message _ _ Hm). unfold quoted.
    now rewrite !append_assoc.
  - intros e -> He. apply occurs_in_append_r. unfold headOf, escapeQuotes.
    rewrite He. apply occurs_in_append_l. unfold field, quoted.
    exists dq, "". now rewrite !append_assoc, append_nil_r.
Qed.

End Traced.

(** ** The default logger of a starting process *)

Section AtStart.
Context {rt : Runtime}.

(** X20. In a process that has configured nothing, the free-standing
    functions write JSON lines to standard error with no common labels,
    for every severity but [Trace]: a free-standing [Trace] writes nothing
    until the mask is given the trace flag. *)
Theorem X20_default_logger_at_start (clock : string) (s : Severity) (ctx : context)
    (message : string) (err : option string) (labels : list value) :
  let w := initialWorld clock in
  New OutputMaskAll true [] w = Ok (defaultLog w) w
  /\ emitted w (callDefault s (Some ctx) message err labels w)
     = match s with
       | STrace => []
       | _ => [(Stderr,
                headOf true "trace"
                  (match Value ctx traceIDKey with Some (CtxString t) => t | _ => "" end)
                  (severityText s) clock (errorOf s err)
                ++ fragment jsonOpenField jsonCloseField [] (balance labels)
                ++ tailOf true message)]
       end
  /\ exists w',
       SetOutputMask (Z.lor OutputMaskAll OutputFlagTrace) w = Ok tt w'
       /\ emitted w' (callDefault STrace (Some ctx) message None labels w') <> [].
Proof.
  intros w. split; [reflexivity|]. split.
  - unfold callDefault, bind, getDefaultLog. rewrite emitted_call.
    destruct s; reflexivity.
  - eexists. split; [reflexivity|].
    unfold callDefault, bind, getDefaultLog. rewrite emitted_call. discriminate.
Qed.

End AtStart.

(** ** Concrete runs of the further properties *)

Section MoreRuns.
#[local] Existing Instance demoRuntime.

Lemma X6_witness :
  Nat.even (List.length [VString "app"; VString "x"]) = true
  /\ exists l,
       New everyFlag true
         ([VString "app"; VString "x"] ++ VString "cost" :: lazy KInt 7 42%Z :: []) world0
       = Ok l world0
       /\ occurs_in (field true "cost" (SprintFunc 7)) (commonLabels l)
       /\ forall (s : Severity) (ctx : context) (message : string) (err : option string)
                 (labels : list value) (w1 : World),
            ~ In 7 (lazyIDs labels) ->
            invocations 7 (world_of (call s l (Some ctx) message err labels w1))
            = invocations 7 w1.
Proof.
  split; [reflexivity|].
  exact (X6_common_lazy_never_runs everyFlag true [VString "app"; VString "x"] []
           "cost" KInt 7 42%Z world0 eq_refl).
Defined.

Lemma X8_witness :
  outputJSON logfmtLog = false
  /\ Nat.even (List.length [VString "a"; VInt 1]) = true
  /\ (child <- WithLabels logfmtLog [VString "a"; VInt 1] ;;
      WithLabels child [VString "b"]) world0
     = WithLabels logfmtLog ([VString "a"; VInt 1] ++ [VString "b"]) world0
  /\ (forall mask,
         (fresh <- New mask false [VString "a"; VInt 1] ;; WithLabels fresh [VString "b"])
           world0
         = New mask false ([VString "a"; VInt 1] ++ [VString "b"]) world0).
Proof.
  split; [reflexivity|]. split; [reflexivity|].
  exact (X8_WithLabels_composes logfmtLog [VString "a"; VInt 1] [VString "b"] world0
           eq_refl eq_refl).
Defined.

Lemma X10_witness :
  plainLabels [VString "app"; VString "x"; VString "port"; VInt 80; VString "odd"] = true
  /\ (withCommon <- New everyFlag true
                      [VString "app"; VString "x"; VString "port"; VInt 80; VString "odd"] ;;
      log withCommon (Some tracedCtx) "INFO" "m" None []) world0
     = (bare <- New everyFlag true [] ;;
        log bare (Some tracedCtx) "INFO" "m" None
          [VString "app"; VString "x"; VString "port"; VInt 80; VString "odd"]) world0.
Proof.
  split; [reflexivity|].
  exact (X10_common_or_call_site everyFlag true
           [VString "app"; VString "x"; VString "port"; VInt 80; VString "odd"]
           tracedCtx "INFO" "m" None world0 eq_refl).
Defined.

Lemma X11_witness :
  Nat.even (List.length [VString "k"]) = false
  /\ SDebug <> STrace
  /\ call SDebug jsonLog (Some tracedCtx) "m" None [VString "k"] world0
     = call SDebug jsonLog (Some tracedCtx) "m" None ([VString "k"] ++ [missing]) world0
  /\ New everyFlag true [VString "k"] world0
     = New everyFlag true ([VString "k"] ++ [missing]) world0.
Proof.
  split; [reflexivity|]. split; [discriminate|].
  destruct (X11_odd_labels_get_sentinel [VString "k"] SDebug jsonLog (Some tracedCtx) "m"
              None everyFlag true world0 eq_refl) as (H1 & H2 & _).
  split; [apply H1; discriminate | exact H2].
Defined.

Lemma X12_witness :
  Nat.even (List.length [VString "trace"; VBool false]) = true
  /\ Z.testbit (outputMask logfmtLog) (bitOf STrace) = true
  /\ Z.testbit (outputMask logfmtLog) (bitOf SDebug) = true
  /\ exists body,
       emitted world0
         (Debug logfmtLog (Some tracedCtx) "m" [VString "trace"; VBool false] world0)
       = [(Writer logfmtLog, body ++ tailOf (outputJSON logfmtLog) "m")]
       /\ emitted world0
            (Trace logfmtLog (Some tracedCtx) "m" [VString "trace"; VBool false] world0)
          = [(Writer logfmtLog,
              body ++ field (outputJSON logfmtLog) "trace" "true"
                ++ tailOf (outputJSON logfmtLog) "m")]
       /\ invoked (world_of (Trace logfmtLog (Some tracedCtx) "m"
                               [VString "trace"; VBool false] world0))
          = invoked (world_of (Debug logfmtLog (Some tracedCtx) "m"
                                 [VString "trace"; VBool false] world0)).
Proof.
  split; [reflexivity|]. split; [reflexivity|]. split; [reflexivity|].
  exact (X12_Trace_is_Debug_plus_field logfmtLog tracedCtx "m"
           [VString "trace"; VBool false] world0 eq_refl eq_refl eq_refl).
Defined.

Lemma X14_witness :
  Z.testbit (outputMask jsonLog) (bitOf SFatal) = true
  /\ (exists msg,
         call SFatal jsonLog None "m" (Some "e") [VString "k"; lazy KInt 7 1%Z] world0
         = Panic msg world0)
  /\ emitted world0
       (call SFatal jsonLog None "m" (Some "e") [VString "k"; lazy KInt 7 1%Z] world0)
     = []
  /\ exists msg, ContextFrom None "t1" world0 = Panic msg world0.
Proof.
  split; [reflexivity|].
  exact (X14_nil_context SFatal jsonLog "m" (Some "e") [VString "k"; lazy KInt 7 1%Z]
           "t1" world0 eq_refl).
Defined.

Lemma X17_witness :
  "t1" <> ""
  /\ exists c tid w',
       ContextFrom (Some Background) "t1" world0 = Ok c w'
       /\ tid = "t1" /\ w' = world0
       /\ (forall w1, TraceID (Some c) w1 = Ok tid w1)
       /\ Z.testbit (outputMask jsonLog) (bitOf SInfo) = true
       /\ exists rest,
            emitted world0 (call SInfo jsonLog (Some c) "m" None [] world0)
            = [(Writer jsonLog,
                openLogOf true ++ "trace" ++ closeFieldOf true ++ quoted tid ++ rest)].
Proof.
  split; [discriminate|].
  destruct (X17_lines_carry_trace_id Background "t1" world0)
    as (c & tid & w' & Hc & _ & Hgiven & _ & Hread & Hline).
  destruct (Hgiven ltac:(discriminate)) as [Ht Hw].
  exists c, tid, w'. split; [exact Hc|]. split; [exact Ht|]. split; [exact Hw|].
  split; [exact Hread|]. split; [reflexivity|].
  exact (Hline SInfo jsonLog "m" None [] world0 eq_refl).
Defined.

Lemma X18_witness :
  "outer" <> "" /\ "inner" <> ""
  /\ exists c1 c2,
       ContextFrom (Some (WithValue Background (foreignKey 1) (CtxOther 5))) "outer" world0
       = Ok c1 world0
       /\ ContextFrom (Some c1) "inner" world0 = Ok c2 world0
       /\ TraceID (Some c2) world0 = Ok "inner" world0
       /\ TraceID (Some c1) world0 = Ok "outer" world0
       /\ forall n, Value c2 (foreignKey n)
                    = Value (WithValue Background (foreignKey 1) (CtxOther 5)) (foreignKey n).
Proof.
  split; [discriminate|]. split; [discriminate|].
  apply (X18_ContextFrom_nests (WithValue Background (foreignKey 1) (CtxOther 5))
           "outer" "inner" world0); discriminate.
Defined.

Lemma X19_witness :
  Contains ("two" ++ nl ++ "lines") dq_char = false
  /\ exists body,
       emitted world0
         (log jsonLog (Some tracedCtx) "INFO" ("two" ++ nl ++ "lines") (Some "io failure")
            [] world0)
       = [(Writer jsonLog,
           body ++ field (outputJSON jsonLog) "message" (quoted ("two" ++ nl ++ "lines"))
             ++ closeLogOf (outputJSON jsonLog) ++ nl)]
       /\ forall e, Some "io failure" = Some e -> Contains e dq_char = false ->
                    occurs_in (field (outputJSON jsonLog) "error" (quoted e)) body.
Proof.
  split; [reflexivity|].
  exact (X19_text_without_quote_is_verbatim jsonLog tracedCtx "INFO"
           ("two" ++ nl ++ "lines") (Some "io failure") [] world0 eq_refl).
Defined.

End MoreRuns.
